(** * aiodeepl: the asynchronous transport and the façade bridge

    A shallow embedding of [aiodeepl/aioclient.py] and
    [aiodeepl/translator.py].  Python floats are idealised as rationals,
    coroutines are run to completion in a state-and-exception monad over an
    explicit world (clock, random draws, HTTP exchanges, open responses,
    log), and the inherited parts of the wrapped [deepl] package that the
    source calls but does not define are stated separately. *)

From Stdlib Require Import QArith Qminmax Lqa.
From stdpp Require Import gmap strings list.

Local Open Scope Q_scope.
Local Open Scope string_scope.

(** ** Python exceptions *)

Module Py.

(** The exception classes the two source files name or can meet, with the
    part of the class graph that decides which [except] clause fires. *)
Inductive exc_class :=
| BaseException | Exception | CancelledError
| ClientError | ClientResponseError | ClientPayloadError
| ClientConnectionError | ServerConnectionError | ServerTimeoutError
| TimeoutError | ValueError | UnicodeDecodeError | RuntimeError | TypeError
| DeepLException | ConnectionException.

#[global] Instance exc_class_eq_dec : EqDecision exc_class.
Proof. solve_decision. Defined.

Definition bases (c : exc_class) : list exc_class :=
  match c with
  | BaseException => []
  | Exception | CancelledError => [BaseException]
  | ClientError | TimeoutError | ValueError | RuntimeError | TypeError
  | DeepLException => [Exception]
  | ClientResponseError | ClientPayloadError
  | ClientConnectionError => [ClientError]
  | ServerConnectionError => [ClientConnectionError]
  | ServerTimeoutError => [ServerConnectionError; TimeoutError]
  | UnicodeDecodeError => [ValueError]
  | ConnectionException => [DeepLException]
  end.

Fixpoint issubclass_upto (depth : nat) (c d : exc_class) : bool :=
  bool_decide (c = d) ||
  match depth with
  | O => false
  | S depth' => existsb (fun b => issubclass_upto depth' b d) (bases c)
  end.

(** The graph above has depth 5. *)
Definition issubclass : exc_class -> exc_class -> bool := issubclass_upto 5.

(** An exception object: its class, [str(e)], and the [should_retry]
    attribute, which only [ConnectionException] instances carry. *)
Record exception := {
  exc_type : exc_class;
  exc_str : string;
  should_retry : option bool;
}.

Definition isinstance (e : exception) (c : exc_class) : bool :=
  issubclass (exc_type e) c.

Definition new_exception (c : exc_class) (message : string) : exception :=
  {| exc_type := c; exc_str := message; should_retry := None |}.

(** [ConnectionException(message, should_retry=flag)] *)
Definition new_ConnectionException (message : string) (flag : bool) : exception :=
  {| exc_type := ConnectionException; exc_str := message;
     should_retry := Some flag |}.

Inductive result (A : Type) :=
| Ok (a : A)
| Raise (e : exception).
Arguments Ok {A} a.
Arguments Raise {A} e.

End Py.
Export Py.


(** ** The world the coroutines run in *)

(** What [_prepare_request] hands to every attempt. *)
Record PreparedRequest := {
  req_method : string;
  req_url : string;
  req_data : option (gmap string string);
  req_json : option (gmap string string);
  req_headers : gmap string string;
}.

(** An [aiohttp.ClientResponse]: the connection it holds (numbered by the
    exchange that produced it), its status, and what [text()] will do. *)
Record ClientResponse := {
  handle : nat;
  status : Z;
  body : result string;
}.

(** One HTTP exchange as the network decides it: [session.request] raises,
    or a response arrives whose [text()] yields the body or raises. *)
Inductive exchange :=
| Fails (e : exception)
| Responds (status_code : Z) (text : result string).

(** [Union[str, ClientResponse]] *)
Inductive content :=
| Text (s : string)
| Live (r : ClientResponse).

Inductive event :=
| EvPrepare (r : PreparedRequest)
| EvAttempt (r : PreparedRequest) (timeout : Q)
| EvSleep (seconds : Q)
| EvResponseClose (h : nat)
| EvLogRetryable (e : exception)
| EvLogStartingRetry (n : nat) (method url : string) (seconds : Q)
| EvLog (message : string).

(** The asyncio event loop as [Translator.__del__] can find it. *)
Inductive scheduler :=
| NoLoop        (* get_event_loop() has no loop to return *)
| LoopClosed
| LoopIdle
| LoopRunning.

Inductive coroutine :=
| CoClientClose.

Record World := {
  clock : Q;                  (* what time.time() returns *)
  draws : nat;                (* random numbers consumed so far *)
  exchanges : nat;            (* HTTP round trips started so far *)
  open_responses : list nat;  (* responses whose connection is still held *)
  session_closed : bool;      (* the ClientSession of the transport *)
  loop : scheduler;
  tasks : list coroutine;     (* scheduled on the loop, not yet run *)
  trace : list event;         (* everything observable, oldest first *)
}.

Definition set_clock (v : Q) (w : World) : World :=
  {| clock := v; draws := draws w; exchanges := exchanges w;
     open_responses := open_responses w; session_closed := session_closed w;
     loop := loop w; tasks := tasks w; trace := trace w |}.

Definition set_draws (v : nat) (w : World) : World :=
  {| clock := clock w; draws := v; exchanges := exchanges w;
     open_responses := open_responses w; session_closed := session_closed w;
     loop := loop w; tasks := tasks w; trace := trace w |}.

Definition set_exchanges (v : nat) (w : World) : World :=
  {| clock := clock w; draws := draws w; exchanges := v;
     open_responses := open_responses w; session_closed := session_closed w;
     loop := loop w; tasks := tasks w; trace := trace w |}.

Definition set_open_responses (v : list nat) (w : World) : World :=
  {| clock := clock w; draws := draws w; exchanges := exchanges w;
     open_responses := v; session_closed := session_closed w;
     loop := loop w; tasks := tasks w; trace := trace w |}.

Definition set_session_closed (v : bool) (w : World) : World :=
  {| clock := clock w; draws := draws w; exchanges := exchanges w;
     open_responses := open_responses w; session_closed := v;
     loop := loop w; tasks := tasks w; trace := trace w |}.

Definition set_tasks (v : list coroutine) (w : World) : World :=
  {| clock := clock w; draws := draws w; exchanges := exchanges w;
     open_responses := open_responses w; session_closed := session_closed w;
     loop := loop w; tasks := v; trace := trace w |}.

Definition set_trace (v : list event) (w : World) : World :=
  {| clock := clock w; draws := draws w; exchanges := exchanges w;
     open_responses := open_responses w; session_closed := session_closed w;
     loop := loop w; tasks := tasks w; trace := v |}.

(** ** A state-and-exception monad for coroutines run to completion *)

Definition M (A : Type) : Type := World -> result A * World.

Definition ret {A} (a : A) : M A := fun w => (Ok a, w).

Definition raise {A} (e : exception) : M A := fun w => (Raise e, w).

Definition bind {A B} (m : M A) (k : A -> M B) : M B :=
  fun w =>
    match m w with
    | (Ok a, w') => k a w'
    | (Raise e, w') => (Raise e, w')
    end.

Notation "x <- m ;; k" := (bind m (fun x => k))
  (at level 100, m at next level, right associativity).
Notation "m ;;; k" := (bind m (fun _ => k))
  (at level 100, right associativity).

(** [try: body  except c1: h1  except c2: h2 ...]: the first clause whose
    class the exception is an instance of handles it; with none, it
    propagates. *)
Fixpoint dispatch {A} (clauses : list (exc_class * (exception -> M A)))
    (e : exception) : M A :=
  match clauses with
  | [] => raise e
  | (c, h) :: rest => if isinstance e c then h e else dispatch rest e
  end.

Definition try_except {A} (body : M A)
    (clauses : list (exc_class * (exception -> M A))) : M A :=
  fun w =>
    match body w with
    | (Ok a, w') => (Ok a, w')
    | (Raise e, w') => dispatch clauses e w'
    end.

(** [try: body  finally: cleanup]: the cleanup runs on both exits; the
    body's outcome stands unless the cleanup itself raises. *)
Definition try_finally {A} (body : M A) (cleanup : M unit) : M A :=
  fun w =>
    let '(r, w1) := body w in
    match cleanup w1 with
    | (Ok _, w2) => (r, w2)
    | (Raise e, w2) => (Raise e, w2)
    end.

Definition emit (ev : event) : M unit :=
  fun w => (Ok tt, set_trace (trace w ++ [ev]) w).

(** [time.time()] *)
Definition time_time : M Q := fun w => (Ok (clock w), w).

(** [await asyncio.sleep(seconds)]: the clock has advanced by the time the
    coroutine resumes. *)
Definition asyncio_sleep (seconds : Q) : M unit :=
  fun w => (Ok tt,
    set_trace (trace w ++ [EvSleep seconds]) (set_clock (clock w + seconds) w)).

(** ** asyncio's loop, as far as the finalizer uses it *)

(** [asyncio.get_event_loop()] *)
Definition asyncio_get_event_loop : M unit :=
  fun w =>
    match loop w with
    | NoLoop =>
        (Raise (new_exception RuntimeError "There is no current event loop"), w)
    | _ => (Ok tt, w)
    end.

(** [loop.is_running()] *)
Definition loop_is_running : M bool :=
  fun w => (Ok match loop w with LoopRunning => true | _ => false end, w).

(** [loop.create_task(coro)]: the coroutine is queued, not run. *)
Definition loop_create_task (coro : coroutine) : M unit :=
  fun w =>
    match loop w with
    | NoLoop | LoopClosed =>
        (Raise (new_exception RuntimeError "Event loop is closed"), w)
    | _ => (Ok tt, set_tasks (tasks w ++ [coro]) w)
    end.

(** [loop.run_until_complete(coro)]: only an open, idle loop runs it. *)
Definition loop_run_until_complete (run : coroutine -> M unit)
    (coro : coroutine) : M unit :=
  fun w =>
    match loop w with
    | NoLoop | LoopClosed =>
        (Raise (new_exception RuntimeError "Event loop is closed"), w)
    | LoopRunning =>
        (Raise (new_exception RuntimeError "This event loop is already running"), w)
    | LoopIdle => run coro w
    end.

(** ** The backoff timer *)

Record timer := {
  _backoff : Q;
  _deadline : Q;
  _num_retries : nat;
}.

(** The three assignments of [sleep_until_deadline]. *)
Definition set_backoff (v : Q) (self : timer) : timer :=
  {| _backoff := v; _deadline := _deadline self;
     _num_retries := _num_retries self |}.

Definition set_deadline (v : Q) (self : timer) : timer :=
  {| _backoff := _backoff self; _deadline := v;
     _num_retries := _num_retries self |}.

Definition set_num_retries (v : nat) (self : timer) : timer :=
  {| _backoff := _backoff self; _deadline := _deadline self;
     _num_retries := v |}.

(** The façade object: [self._server_url] and [self.headers]; its
    [self._client] is the transport whose session lives in the world. *)
Record Translator := {
  _server_url : string;
  headers : gmap string string;
}.

(** The outcome of one turn of a [while True] loop. *)
Inductive step (A S : Type) :=
| Return (a : A)
| Continue (s : S).
Arguments Return {A S} a.
Arguments Continue {A S} s.

(** [while True: body], with the loop variable threaded through and the
    number of turns bounded by [fuel]; [None] is "still looping". *)
Fixpoint while_true {A S} (fuel : nat) (body : S -> M (step A S)) (s : S)
    (w : World) : option (result A * World) :=
  match fuel with
  | O => None
  | S fuel' =>
      match body s w with
      | (Ok (Return a), w') => Some (Ok a, w')
      | (Ok (Continue s'), w') => while_true fuel' body s' w'
      | (Raise e, w') => Some (Raise e, w')
      end
  end.

(** [try: response = body; exception = None
     except Exception as e: response = None; exception = e] *)
Definition capture {A} (body : M A) : M (option A * option exception) :=
  try_except (r <- body ;; ret (Some r, None))
    [(Exception, fun e => ret (None, Some e))].

(** [headers.update({k: v for k, v in defaults.items() if k not in headers})]:
    [dict.update] lets the argument's entries win, and the comprehension
    keeps only the defaults whose key the caller's mapping lacks. *)
Definition update_absent (headers defaults : gmap string string)
    : gmap string string :=
  filter (fun kv => headers !! kv.1 = None) defaults ∪ headers.

(** ** Sample environments *)

Definition world0 : World :=
  {| clock := 0; draws := 0; exchanges := 0; open_responses := [];
     session_closed := false; loop := LoopIdle; tasks := []; trace := [] |}.

(** A world whose event loop has been closed. *)
Definition world_after_shutdown : World :=
  {| clock := 0; draws := 0; exchanges := 0; open_responses := [];
     session_closed := false; loop := LoopClosed; tasks := []; trace := [] |}.

Definition always_timing_out : nat -> PreparedRequest -> Q -> exchange :=
  fun _ _ _ => Fails (new_exception ServerTimeoutError "deadline exceeded").

Definition malformed_reply : nat -> PreparedRequest -> Q -> exchange :=
  fun _ _ _ => Fails (new_exception ClientResponseError "malformed response").

Definition answers_ok : nat -> PreparedRequest -> Q -> exchange :=
  fun _ _ _ => Responds 200 (Ok "ok").

Definition undecodable_body : nat -> PreparedRequest -> Q -> exchange :=
  fun _ _ _ =>
    Responds 200 (Raise (new_exception UnicodeDecodeError "invalid start byte")).

(** Two timeouts, then the answer. *)
Definition flaky_then_ok : nat -> PreparedRequest -> Q -> exchange :=
  fun n _ _ =>
    if (n <? 2)%nat
    then Fails (new_exception ServerTimeoutError "deadline exceeded")
    else Responds 200 (Ok "ok").

Definition half_up : nat -> Q := fun _ => 1 # 2.

Definition fresh_timer : timer :=
  {| _backoff := 1; _deadline := 1; _num_retries := 0 |}.

Definition join_urls : string -> string -> string :=
  fun base url => base +:+ "/" +:+ url.

Definition no_json : string -> option unit := fun _ => None.

Definition sample_body : gmap string string := {[ "document_key" := "0123" ]}.

Section Aiodeepl.

(** Class attributes of [deepl.http_client._BackoffTimer] and the module
    constants [min_connection_timeout] and [max_network_retries]; their
    values are set in the wrapped package. *)
Variables BACKOFF_INITIAL BACKOFF_MAX BACKOFF_JITTER BACKOFF_MULTIPLIER : Q.
Variable min_connection_timeout : Q.
Variable max_network_retries : nat.

(** The n-th value [random.uniform(-1, 1)] returns. *)
Variable uniform : nat -> Q.

(** What the network does with the n-th round trip. *)
Variable server : nat -> PreparedRequest -> Q -> exchange.

(** [urllib.parse.urljoin] and [json.loads] ([None]: JSONDecodeError). *)
Variable urljoin : string -> string -> string.
Variable JSON : Type.
Variable json_loads : string -> option JSON.

Definition random_uniform : M Q :=
  fun w => (Ok (uniform (draws w)), set_draws (S (draws w)) w).

(** Modelled from the spec: [_BackoffTimer.__init__], inherited from the
    wrapped package: "sets initial backoff duration to a fixed base value,
    initial deadline to now + base duration, retry count to 0". *)
Definition new_timer : M timer :=
  now <- time_time ;;
  ret {| _backoff := BACKOFF_INITIAL;
         _deadline := now + BACKOFF_INITIAL;
         _num_retries := 0 |}.

(** Modelled from the spec: [get_num_retries], inherited: "returns the
    number of completed retries". *)
Definition get_num_retries (self : timer) : nat := _num_retries self.

(** Modelled from the spec: [get_time_until_deadline], inherited:
    "returns max(0, deadline − now)". *)
Definition get_time_until_deadline (self : timer) : M Q :=
  now <- time_time ;;
  ret (Qmax 0 (_deadline self - now)).

(** Modelled from the spec: [get_timeout], inherited: the
    time-until-deadline "floored at a minimum safe value". *)
Definition get_timeout (self : timer) : M Q :=
  d <- get_time_until_deadline self ;;
  ret (Qmax d min_connection_timeout).

(** [_AioBackoffTimer.sleep_until_deadline] (aioclient.py 15-28) *)
Definition sleep_until_deadline (self : timer) : M timer :=
  d <- get_time_until_deadline self ;;
  asyncio_sleep d ;;;
  let self := set_backoff
                (Qmin (_backoff self * BACKOFF_MULTIPLIER) BACKOFF_MAX) self in
  now <- time_time ;;
  u <- random_uniform ;;
  let self := set_deadline
                (now + _backoff self * (1 + BACKOFF_JITTER * u)) self in
  let self := set_num_retries (_num_retries self + 1) self in
  ret self.

(** ** The transport: [AioHttpClient] *)

(** [await self._session.request(...)]: one network round trip. *)
Definition session_request (request : PreparedRequest) (timeout : Q)
    : M ClientResponse :=
  fun w =>
    let n := exchanges w in
    let w1 := set_trace (trace w ++ [EvAttempt request timeout])
                (set_exchanges (S n) w) in
    match server n request timeout with
    | Fails e => (Raise e, w1)
    | Responds code text =>
        (Ok {| handle := n; status := code; body := text |},
         set_open_responses (n :: open_responses w1) w1)
    end.

(** [await response.text(encoding="utf-8")] *)
Definition response_text (response : ClientResponse) : M string :=
  fun w => (body response, w).

(** [response.close()] *)
Definition response_close (response : ClientResponse) : M unit :=
  fun w => (Ok tt,
    set_trace (trace w ++ [EvResponseClose (handle response)])
      (set_open_responses
         (filter (fun h => h ≠ handle response) (open_responses w)) w)).

(** Modelled from the spec: [ClientSession.close], of the HTTP library:
    "releases all pooled connections; idempotent; safe to call multiple
    times". *)
Definition session_close : M unit :=
  fun w => (Ok tt, set_session_closed true w).

(** [AioHttpClient.close] (aioclient.py 49-50) *)
Definition AioHttpClient_close : M unit := session_close.

(** Modelled from the spec: [HttpClient._prepare_request], inherited from
    the wrapped package: "build the Request Descriptor", whose fields are
    the method, the target URL, the optional form and JSON bodies and the
    header mapping. *)
Definition _prepare_request (method url : string)
    (data json : option (gmap string string))
    (headers : gmap string string) : M PreparedRequest :=
  let request := {| req_method := method; req_url := url; req_data := data;
                    req_json := json; req_headers := headers |} in
  emit (EvPrepare request) ;;;
  ret request.

(** The four [except] clauses of [_internal_request] (aioclient.py 143-154). *)
Definition classify : list (exc_class * (exception -> M (Z * content))) :=
  [ (ServerTimeoutError, fun e =>
       raise (new_ConnectionException ("Request timed out: " +:+ exc_str e) true));
    (ClientConnectionError, fun e =>
       raise (new_ConnectionException ("Connection failed: " +:+ exc_str e) true));
    (ClientResponseError, fun e =>
       raise (new_ConnectionException ("Request failed: " +:+ exc_str e) false));
    (Exception, fun e =>
       raise (new_ConnectionException
                ("Unexpected request failure: " +:+ exc_str e) false)) ].

(** [AioHttpClient._internal_request] (aioclient.py 123-154) *)
Definition _internal_request (request : PreparedRequest) (stream : bool)
    (timeout : Q) : M (Z * content) :=
  try_except
    (response <- session_request request timeout ;;
     if stream then ret (status response, Live response)
     else
       try_finally
         (text <- response_text response ;;
          ret (status response, Text text))
         (response_close response))
    classify.

(** [AioHttpClient.request] (aioclient.py 101-121) *)
Definition request (method url : string)
    (data json : option (gmap string string))
    (headers : gmap string string) (stream : bool) : M (Z * content) :=
  request <- _prepare_request method url data json headers ;;
  _internal_request request stream min_connection_timeout.

(** Modelled from the spec: [HttpClient._should_retry], inherited from the
    wrapped package: "retry is declined if (a) the attempt succeeded, or
    (b) an error occurred but its retryable flag is false, or (c) the retry
    count has reached the maximum allowed retries. Otherwise retry is
    granted." *)
Definition _should_retry (response : option (Z * content))
    (exception : option exception) (num_retries : nat) : bool :=
  match response, exception with
  | Some _, _ => false
  | None, Some e =>
      match should_retry e with
      | Some true => negb (max_network_retries <=? num_retries)%nat
      | _ => false
      end
  | None, None => false
  end.

(** One turn of the loop of [request_with_backoff] (aioclient.py 71-99). *)
Definition attempt_once (method url : string) (request : PreparedRequest)
    (stream : bool) (backoff : timer) : M (step (Z * content) timer) :=
  timeout <- get_timeout backoff ;;
  captured <- capture (_internal_request request stream timeout) ;;
  let '(response, exception) := captured in
  if negb (_should_retry response exception (get_num_retries backoff)) then
    match response, exception with
    | Some r, _ => ret (Return r)
    | None, Some e => raise e
    | None, None =>
        raise (new_exception TypeError
                 "exceptions must derive from BaseException")
    end
  else
    match exception with
    | Some e => emit (EvLogRetryable e)
    | None => ret tt
    end ;;;
    d <- get_time_until_deadline backoff ;;
    emit (EvLogStartingRetry (get_num_retries backoff + 1) method url d) ;;;
    backoff <- sleep_until_deadline backoff ;;
    ret (Continue backoff).

(** Computations that contain the retry loop: [None] when the fuel given to
    the loop did not suffice. *)
Definition MF (A : Type) : Type := World -> option (result A * World).

Definition lift {A} (m : M A) : MF A := fun w => Some (m w).

Definition bindF {A B} (m : MF A) (k : A -> MF B) : MF B :=
  fun w =>
    match m w with
    | None => None
    | Some (Ok a, w') => k a w'
    | Some (Raise e, w') => Some (Raise e, w')
    end.

Notation "x <<- m ;; k" := (bindF m (fun x => k))
  (at level 100, m at next level, right associativity).

(** [AioHttpClient.request_with_backoff] (aioclient.py 52-99) *)
Definition request_with_backoff (fuel : nat) (method url : string)
    (data json : option (gmap string string))
    (headers : gmap string string) (stream : bool) : MF (Z * content) :=
  backoff <<- lift new_timer ;;
  request <<- lift (_prepare_request method url data json headers) ;;
  while_true fuel (attempt_once method url request stream) backoff.

(** ** The façade: [Translator] *)

Variables _DEEPL_SERVER_URL _DEEPL_SERVER_URL_FREE : string.
Variable auth_key_is_free_account : string -> bool.

(** [Translator.__init__] (translator.py 42-66); constructing the transport
    opens its session. *)
Definition Translator_init (auth_key : string) (server_url : option string)
    : M Translator :=
  if bool_decide (auth_key = "") then
    raise (new_exception ValueError "auth_key must not be empty")
  else
    let server_url :=
      match server_url with
      | None => if auth_key_is_free_account auth_key
                then _DEEPL_SERVER_URL_FREE else _DEEPL_SERVER_URL
      | Some u => u
      end in
    (fun w => (Ok tt, set_session_closed false w)) ;;;
    ret {| _server_url := server_url;
           headers := {[ "Authorization" := "DeepL-Auth-Key " +:+ auth_key ]} |}.

Definition run_coroutine (coro : coroutine) : M unit :=
  match coro with
  | CoClientClose => AioHttpClient_close
  end.

(** The [except RuntimeError: pass] of the finalizer. *)
Definition del_handlers : list (exc_class * (exception -> M unit)) :=
  [ (RuntimeError, fun _ => ret tt) ].

(** [Translator.__del__] (translator.py 68-76) *)
Definition Translator_del : M unit :=
  try_except
    (asyncio_get_event_loop ;;;
     running <- loop_is_running ;;
     if running then loop_create_task CoClientClose
     else loop_run_until_complete run_coroutine CoClientClose)
    del_handlers.

(** [Translator.close] (translator.py 145-146) *)
Definition Translator_close : M unit := AioHttpClient_close.

(** [Translator._api_call] (translator.py 79-129) *)
Definition _api_call (fuel : nat) (self : Translator) (url method : string)
    (data json : option (gmap string string)) (stream : bool)
    (headers_arg : option (gmap string string))
    : MF (Z * content * option JSON) :=
  if bool_decide (data ≠ None) && bool_decide (json ≠ None) then
    lift (raise (new_exception ValueError "cannot accept both json and data"))
  else
    let data := match data with None => ∅ | Some d => d end in
    let url := urljoin (_server_url self) url in
    _ <<- lift (emit (EvLog "Request to DeepL API") ;;;
                emit (EvLog "Request details")) ;;
    let hdrs := match headers_arg with None => ∅ | Some h => h end in
    let hdrs := update_absent hdrs (headers self) in
    reply <<- request_with_backoff fuel method url (Some data) json hdrs stream ;;
    let '(status_code, content) := reply in
    lift (emit (EvLog "DeepL API response") ;;;
          match content with
          | Text s =>
              let json := json_loads s in
              emit (EvLog "Response details") ;;;
              ret (status_code, content, json)
          | Live _ => ret (status_code, content, None)
          end).

(** [n] consecutive calls of [sleep_until_deadline] on one timer. *)
Fixpoint sleeps (n : nat) (self : timer) : M timer :=
  match n with
  | O => ret self
  | S n' => self' <- sleeps n' self ;; sleep_until_deadline self'
  end.

(** ** The transport's constructor *)

(** A Python value passed where a proxy URL is expected: [None], a string,
    or some other object, of which only its truth value matters here. *)
Inductive pyobj :=
| PyNone
| PyStr (s : string)
| PyObject (truth : bool).

Definition truthy (v : pyobj) : bool :=
  match v with
  | PyNone => false
  | PyStr s => negb (bool_decide (s = ""))
  | PyObject truth => truth
  end.

(** [isinstance(v, str)] *)
Definition is_str (v : pyobj) : bool :=
  match v with
  | PyStr _ => true
  | _ => false
  end.

Record AioHttpClient := {
  _proxy : pyobj;
  _verify_ssl : option bool;
  _send_platform_info : bool;
  _app_info_name : option string;
  _app_info_version : option string;
}.

(** [AioHttpClient.__init__] (aioclient.py 32-47); [ClientSession()] opens
    the session. *)
Definition AioHttpClient_init (proxy : pyobj) (send_platform_info : bool)
    (verify_ssl : option bool) : M AioHttpClient :=
  (fun w => (Ok tt, set_session_closed false w)) ;;;
  if truthy proxy && negb (is_str proxy) then
    raise (new_exception ValueError "proxy may be specified as a URL string.")
  else
    ret {| _proxy := proxy; _verify_ssl := verify_ssl;
           _send_platform_info := send_platform_info;
           _app_info_name := None; _app_info_version := None |}.

(** ** The rest of the façade: documents and the context manager *)

(** [deepl.DocumentHandle], as far as the download reads it. *)
Record DocumentHandle := {
  document_id : string;
  document_key : string;
}.

(** [super()._raise_for_status], the wrapped package's check of a reply:
    from the status, the body text, the JSON and its two flags it returns
    or raises. *)
Variable base_raise_for_status :
  Z -> string -> option JSON -> bool -> bool -> result unit.

(** [response.content.iter_chunked(chunk_size)]: the chunks the stream
    yields, and the exception that ends it early, if any. *)
Variable iter_chunked : ClientResponse -> nat -> list string * option exception.

(** [Translator._raise_for_status] (translator.py 131-143) *)
Definition _raise_for_status (status_code : Z) (reply : content)
    (json : option JSON) (glossary downloading_document : bool) : M unit :=
  text <- match reply with
          | Text s => ret s
          | Live r => response_text r
          end ;;
  fun w => (base_raise_for_status status_code text json glossary
              downloading_document, w).

(** [Translator.translate_document_download] (translator.py 148-194).
    [output_file] is the list of chunks the sink holds, [None] for an
    absent (or falsy) sink; the sink's final contents are returned beside
    the outcome.  A failed [assert] raises an [AssertionError], which among
    the classes listed above is an instance of [Exception] only. *)
Definition translate_document_download (fuel : nat) (self : Translator)
    (handle : DocumentHandle) (output_file : option (list string))
    (chunk_size : nat)
    : World -> option (result (option ClientResponse) * option (list string) * World) :=
  fun w =>
    let data : gmap string string :=
      {[ "document_key" := document_key handle ]} in
    let url := "v2/document/" +:+ document_id handle +:+ "/result" in
    match
      (reply <<- _api_call fuel self url "POST" None (Some data) true None ;;
       let '(status_code, response, json) := reply in
       match response with
       | Text _ => lift (raise (new_exception Exception "AssertionError"))
       | Live r =>
           _ <<- lift (_raise_for_status status_code (Text "<file>") json
                         false true) ;;
           lift (ret r)
       end) w
    with
    | None => None
    | Some (Raise e, w') => Some (Raise e, output_file, w')
    | Some (Ok response, w') =>
        match output_file with
        | Some file =>
            let '(chunks, failure) := iter_chunked response chunk_size in
            match failure with
            | None => Some (Ok None, Some (file ++ chunks)%list, w')
            | Some e => Some (Raise e, Some (file ++ chunks)%list, w')
            end
        | None => Some (Ok (Some response), None, w')
        end
    end.

(** [Translator.__aenter__] (translator.py 196-198); installing the
    greenback portal changes nothing of the world modelled here. *)
Definition Translator_aenter (self : Translator) : M Translator := ret self.

(** [Translator.__aexit__] (translator.py 200-201); it returns [None]. *)
Definition Translator_aexit (self : Translator)
    (exc : option exception) : M unit :=
  Translator_close.

(** [async with manager as x: body]: [__aexit__] runs on both exits, and
    since it returns [None] an exception of the body is not suppressed. *)
Definition async_with {A} (aenter : M Translator)
    (aexit : option exception -> M unit) (body : Translator -> MF A) : MF A :=
  x <<- lift aenter ;;
  fun w =>
    match body x w with
    | None => None
    | Some (Ok a, w1) =>
        match aexit None w1 with
        | (Ok _, w2) => Some (Ok a, w2)
        | (Raise e, w2) => Some (Raise e, w2)
        end
    | Some (Raise e, w1) =>
        match aexit (Some e) w1 with
        | (Ok _, w2) => Some (Raise e, w2)
        | (Raise e', w2) => Some (Raise e', w2)
        end
    end.

(** ** Vocabulary of the statements *)

(** The world once [session.request] has been issued. *)
Definition attempted (request : PreparedRequest) (timeout : Q) (w : World)
    : World :=
  set_trace (trace w ++ [EvAttempt request timeout])
    (set_exchanges (S (exchanges w)) w).

(** The world once the response of exchange [n] has arrived and has been
    closed again. *)
Definition released (n : nat) (w1 : World) : World :=
  set_trace (trace w1 ++ [EvResponseClose n])
    (set_open_responses (filter (fun h => h ≠ n) (open_responses w1)) w1).

(** The failures [_internal_request] marks as worth retrying. *)
Definition retryable_class (e : exception) : bool :=
  isinstance e ServerTimeoutError || isinstance e ClientConnectionError.

(** Whether an outcome is an exception of class [c]. *)
Definition isinstance_result {A} (r : result A) (c : exc_class) : bool :=
  match r with
  | Ok _ => false
  | Raise e => isinstance e c
  end.

(** What a retry loop working on the descriptor [request] may leave in the
    trace: no second preparation, and attempts with that descriptor only. *)
Definition reuses (request : PreparedRequest) (ev : event) : Prop :=
  match ev with
  | EvPrepare _ => False
  | EvAttempt r _ => r = request
  | _ => True
  end.

Definition is_attempt (ev : event) : bool :=
  match ev with
  | EvAttempt _ _ => true
  | _ => false
  end.

Definition is_sleep (ev : event) : bool :=
  match ev with
  | EvSleep _ => true
  | _ => false
  end.

(** [b * BACKOFF_MULTIPLIER ^ n] *)
Fixpoint scaled (b : Q) (n : nat) : Q :=
  match n with
  | O => b
  | S n' => scaled b n' * BACKOFF_MULTIPLIER
  end.

(** The world once [_api_call] has logged the request it is about to
    make. *)
Definition logged_request (w : World) : World :=
  set_trace
    ((trace w ++ [EvLog "Request to DeepL API"]) ++ [EvLog "Request details"])
    w.

(** How many events of a kind a stretch of the trace holds. *)
Fixpoint count_events (p : event -> bool) (evs : list event) : nat :=
  match evs with
  | [] => 0
  | ev :: rest => (if p ev then 1 else 0) + count_events p rest
  end.

(** The retry numbers announced in the log, in order. *)
Fixpoint retry_numbers (evs : list event) : list nat :=
  match evs with
  | [] => []
  | EvLogStartingRetry n _ _ _ :: rest => n :: retry_numbers rest
  | _ :: rest => retry_numbers rest
  end.


Definition sample_request : PreparedRequest :=
  {| req_method := "POST"; req_url := "v2/translate"; req_data := None;
     req_json := None; req_headers := ∅ |}.

Definition sample_translator : Translator :=
  {| _server_url := "https://api.deepl.com";
     headers := {[ "Authorization" := "DeepL-Auth-Key secret" ]} |}.

Definition sample_document : DocumentHandle :=
  {| document_id := "7"; document_key := "0123" |}.

(** A cancelled exchange, and a stream of three chunks. *)
Definition cancelled : nat -> PreparedRequest -> Q -> exchange :=
  fun _ _ _ => Fails (new_exception CancelledError "").

Definition three_chunks : ClientResponse -> nat -> list string * option exception :=
  fun _ _ => (["ab"; "cd"; "e"], None).

Definition status_is_fine : Z -> string -> option unit -> bool -> bool -> result unit :=
  fun _ _ _ _ _ => Ok tt.

(** * Properties *)

(** ** The backoff timer *)

Lemma sleep_until_deadline_eq (self : timer) (w : World) :
  sleep_until_deadline self w =
    let d := Qmax 0 (_deadline self - clock w) in
    let b := Qmin (_backoff self * BACKOFF_MULTIPLIER) BACKOFF_MAX in
    let w1 := set_trace (trace w ++ [EvSleep d]) (set_clock (clock w + d) w) in
    (Ok {| _backoff := b;
           _deadline := clock w1 + b * (1 + BACKOFF_JITTER * uniform (draws w));
           _num_retries := _num_retries self + 1 |},
     set_draws (S (draws w)) w1).
Proof. reflexivity. Qed.

Lemma jitter_factor_bounds (u : Q) :
  0 <= BACKOFF_JITTER -> -1 <= u <= 1 ->
  1 - BACKOFF_JITTER <= 1 + BACKOFF_JITTER * u <= 1 + BACKOFF_JITTER.
Proof. intros HJ [Hl Hu]. split; nra. Qed.

Lemma next_backoff_nonneg (b : Q) :
  0 <= BACKOFF_MULTIPLIER -> 0 <= BACKOFF_MAX -> 0 <= b ->
  0 <= Qmin (b * BACKOFF_MULTIPLIER) BACKOFF_MAX.
Proof.
  intros HM HX Hb. apply Q.min_glb; [|assumption].
  apply Qmult_le_0_compat; assumption.
Qed.

(** C4: every call of [sleep_until_deadline] returns, and has then (a)
    multiplied the backoff by the multiplier and capped it at the maximum,
    (b) set the deadline to the current time plus that new backoff scaled
    by a factor in [1 - jitter, 1 + jitter], so the deadline's offset lies
    within [backoff * (1 - jitter), backoff * (1 + jitter)], and (c)
    incremented the retry count, which [get_num_retries] then reads. *)
Theorem sleep_until_deadline_steps (self : timer) (w : World) :
  0 <= BACKOFF_JITTER -> 0 <= BACKOFF_MULTIPLIER -> 0 <= BACKOFF_MAX ->
  0 <= _backoff self -> -1 <= uniform (draws w) <= 1 ->
  exists self' w',
    sleep_until_deadline self w = (Ok self', w') /\
    let now := clock w' in
    let factor := 1 + BACKOFF_JITTER * uniform (draws w) in
    let multiplied :=
      set_backoff (Qmin (_backoff self * BACKOFF_MULTIPLIER) BACKOFF_MAX) self in
    let rescheduled :=
      set_deadline (now + _backoff multiplied * factor) multiplied in
    self' = set_num_retries (_num_retries rescheduled + 1) rescheduled /\
    _backoff self' = Qmin (_backoff self * BACKOFF_MULTIPLIER) BACKOFF_MAX /\
    1 - BACKOFF_JITTER <= factor <= 1 + BACKOFF_JITTER /\
    _deadline self' = now + _backoff self' * factor /\
    _backoff self' * (1 - BACKOFF_JITTER) <= _deadline self' - now
      <= _backoff self' * (1 + BACKOFF_JITTER) /\
    get_num_retries self' = (get_num_retries self + 1)%nat.
Proof.
  intros HJ HM HX Hb Hu.
  rewrite sleep_until_deadline_eq. cbv zeta.
  eexists _, _. split; [reflexivity|]. cbn [_backoff _deadline _num_retries get_num_retries clock set_draws set_trace set_clock].
  pose proof (jitter_factor_bounds _ HJ Hu) as [Hf1 Hf2].
  pose proof (next_backoff_nonneg _ HM HX Hb) as Hb'.
  set (b := Qmin _ _) in *. set (f := 1 + _ * _) in *.
  repeat split; try assumption; try reflexivity; nra.
Qed.

Lemma sleeps_succ (n : nat) (self : timer) (w : World) :
  sleeps (S n) self w =
    match sleeps n self w with
    | (Ok self', w') => sleep_until_deadline self' w'
    | (Raise e, w') => (Raise e, w')
    end.
Proof. reflexivity. Qed.

Lemma next_backoff_grows (b : Q) :
  1 <= BACKOFF_MULTIPLIER -> 0 <= b -> b <= BACKOFF_MAX ->
  b <= Qmin (b * BACKOFF_MULTIPLIER) BACKOFF_MAX <= BACKOFF_MAX.
Proof.
  intros HM H0 Hcap. split.
  - apply Q.min_glb; [nra | assumption].
  - apply Q.le_min_r.
Qed.

Lemma sleeps_backoff_range (n : nat) (self : timer) (w : World) :
  1 <= BACKOFF_MULTIPLIER -> 0 <= BACKOFF_INITIAL ->
  BACKOFF_INITIAL <= _backoff self <= BACKOFF_MAX ->
  exists self' w',
    sleeps n self w = (Ok self', w') /\
    BACKOFF_INITIAL <= _backoff self' <= BACKOFF_MAX.
Proof.
  intros HM HI. revert w. induction n as [|n IH]; intros w Hself.
  - exists self, w. split; [reflexivity | assumption].
  - destruct (IH w Hself) as (t & w1 & Hrun & Hlo & Hhi).
    rewrite sleeps_succ, Hrun, sleep_until_deadline_eq. cbv zeta.
    eexists _, _. split; [reflexivity|]. cbn [_backoff].
    destruct (next_backoff_grows (_backoff t) HM) as [Hg Hc];
      [lra | assumption |].
    split; [lra | assumption].
Qed.

(** C5: along every sequence of [sleep_until_deadline] calls on a fresh
    timer the backoff never decreases from its initial value, never exceeds
    the cap, and stays at the cap once it has reached it. *)
Theorem backoff_nondecreasing_capped (n : nat) (w : World) :
  1 <= BACKOFF_MULTIPLIER -> 0 <= BACKOFF_INITIAL ->
  BACKOFF_INITIAL <= BACKOFF_MAX ->
  exists t w1 t' w2,
    (self <- new_timer ;; sleeps n self) w = (Ok t, w1) /\
    (self <- new_timer ;; sleeps (S n) self) w = (Ok t', w2) /\
    sleep_until_deadline t w1 = (Ok t', w2) /\
    BACKOFF_INITIAL <= _backoff t /\
    _backoff t <= _backoff t' /\
    _backoff t' <= BACKOFF_MAX /\
    (_backoff t == BACKOFF_MAX -> _backoff t' == BACKOFF_MAX).
Proof.
  intros HM HI Hcap.
  set (t0 := {| _backoff := BACKOFF_INITIAL;
                _deadline := clock w + BACKOFF_INITIAL;
                _num_retries := 0 |}).
  destruct (sleeps_backoff_range n t0 w HM HI) as (t & w1 & Hrun & Hlo & Hhi).
  { cbn. lra. }
  assert (Hnew : forall k, (self <- new_timer ;; sleeps k self) w = sleeps k t0 w)
    by reflexivity.
  rewrite !Hnew, sleeps_succ, Hrun, sleep_until_deadline_eq. cbv zeta.
  eexists _, _, _, _. repeat split; try reflexivity; try assumption; cbn [_backoff].
  all: destruct (next_backoff_grows (_backoff t) HM) as [Hg Hc];
    [lra | assumption | try assumption].
  intros Heq. apply Qle_antisym; [assumption | lra].
Qed.

(** ** One HTTP attempt *)

Lemma internal_request_eq (request : PreparedRequest) (stream : bool)
    (timeout : Q) (w : World) :
  _internal_request request stream timeout w =
    let n := exchanges w in
    let w1 := attempted request timeout w in
    match server n request timeout with
    | Fails e => dispatch classify e w1
    | Responds code text =>
        let w2 := set_open_responses (n :: open_responses w1) w1 in
        if stream then
          (Ok (code, Live {| handle := n; status := code; body := text |}), w2)
        else
          match text with
          | Ok s => (Ok (code, Text s), released n w2)
          | Raise e => dispatch classify e (released n w2)
          end
    end.
Proof.
  unfold _internal_request, try_except, bind, session_request, attempted.
  cbv zeta. destruct (server _ _ _) as [e|code text]; [reflexivity|].
  destruct stream; [reflexivity|].
  unfold try_finally, bind, response_text, response_close, released; cbn.
  destruct text; reflexivity.
Qed.

Lemma dispatch_classify (e : exception) (w : World) :
  dispatch classify e w =
    if isinstance e Exception then
      (Raise (new_ConnectionException
                ((if isinstance e ServerTimeoutError then "Request timed out: "
                  else if isinstance e ClientConnectionError then "Connection failed: "
                  else if isinstance e ClientResponseError then "Request failed: "
                  else "Unexpected request failure: ") +:+ exc_str e)
                (retryable_class e)), w)
    else (Raise e, w).
Proof.
  unfold retryable_class, isinstance; cbn.
  destruct e as [c s f]; destruct c; reflexivity.
Qed.

Lemma response_error_not_retryable (e : exception) :
  isinstance e ClientResponseError = true -> retryable_class e = false.
Proof.
  unfold retryable_class, isinstance.
  destruct e as [c s f]; destruct c; vm_compute; congruence.
Qed.

(** C3: when an attempt fails with an exception [e0], raised either by the
    exchange itself or while reading the body, [_internal_request] raises a
    [ConnectionException] whose [should_retry] flag is true exactly when
    [e0] is a server timeout or a connection failure; it is false for a
    response error and for every other exception. *)
Theorem internal_request_classifies (request : PreparedRequest)
    (stream : bool) (timeout : Q) (w : World) (e0 : exception) :
  isinstance e0 Exception = true ->
  server (exchanges w) request timeout = Fails e0 \/
  (stream = false /\
   exists code, server (exchanges w) request timeout = Responds code (Raise e0)) ->
  exists message flag w',
    _internal_request request stream timeout w =
      (Raise (new_ConnectionException message flag), w') /\
    (flag = true <->
       isinstance e0 ServerTimeoutError = true \/
       isinstance e0 ClientConnectionError = true) /\
    (isinstance e0 ClientResponseError = true -> flag = false) /\
    (isinstance e0 ServerTimeoutError = false ->
     isinstance e0 ClientConnectionError = false -> flag = false).
Proof.
  intros Hexc Hfail. rewrite internal_request_eq. cbv zeta.
  assert (Hflag :
    (retryable_class e0 = true <->
       isinstance e0 ServerTimeoutError = true \/
       isinstance e0 ClientConnectionError = true) /\
    (isinstance e0 ClientResponseError = true -> retryable_class e0 = false) /\
    (isinstance e0 ServerTimeoutError = false ->
     isinstance e0 ClientConnectionError = false -> retryable_class e0 = false)).
  { split; [|split].
    - unfold retryable_class. rewrite orb_true_iff. reflexivity.
    - apply response_error_not_retryable.
    - unfold retryable_class. intros -> ->. reflexivity. }
  destruct Hfail as [Hs | (-> & code & Hs)]; rewrite Hs;
    rewrite dispatch_classify, Hexc; eexists _, _, _; (split; [reflexivity | exact Hflag]).
Qed.

(** C6: an attempt with [stream = false] never leaves its response open:
    when a response arrived it has been closed by the time the attempt
    returns or raises, also when reading the body raised, and what is
    returned is the status with the body text, never the live response. *)
Theorem nonstreaming_request_releases (method url : string)
    (data json : option (gmap string string)) (hdrs : gmap string string)
    (prepared : PreparedRequest) (timeout : Q) (w : World) :
  (exists r w',
     _internal_request prepared false timeout w = (r, w') /\
     (forall h, h ∈ open_responses w' -> h ∈ open_responses w /\
        (forall code text, server (exchanges w) prepared timeout = Responds code text ->
           h ≠ exchanges w)) /\
     (forall code text, server (exchanges w) prepared timeout = Responds code text ->
        EvResponseClose (exchanges w) ∈ trace w' /\
        match text with
        | Ok s => r = Ok (code, Text s)
        | Raise _ => exists e, r = Raise e
        end) /\
     (forall code live, r ≠ Ok (code, Live live))) /\
  (exists r w',
     request method url data json hdrs false w = (r, w') /\
     (forall h, h ∈ open_responses w' -> h ∈ open_responses w) /\
     (forall code live, r ≠ Ok (code, Live live))).
Proof.
  assert (Hone : forall rq t w0, exists r w',
     _internal_request rq false t w0 = (r, w') /\
     (forall h, h ∈ open_responses w' -> h ∈ open_responses w0 /\
        (forall code text, server (exchanges w0) rq t = Responds code text ->
           h ≠ exchanges w0)) /\
     (forall code text, server (exchanges w0) rq t = Responds code text ->
        EvResponseClose (exchanges w0) ∈ trace w' /\
        match text with
        | Ok s => r = Ok (code, Text s)
        | Raise _ => exists e, r = Raise e
        end) /\
     (forall code live, r ≠ Ok (code, Live live))).
  { intros rq t w0. rewrite internal_request_eq. cbv zeta.
    destruct (server _ _ _) as [e|code text] eqn:Hs.
    - rewrite dispatch_classify.
      destruct (isinstance e Exception); eexists _, _;
        (split; [reflexivity|]); (split; [|split]);
        try (intros; discriminate); intros h Hh; (split; [exact Hh | intros; discriminate]).
    - assert (Hopen : forall h,
          h ∈ open_responses (released (exchanges w0)
                 (set_open_responses
                    (exchanges w0 :: open_responses (attempted rq t w0))
                    (attempted rq t w0))) ->
          h ∈ open_responses w0 /\ h ≠ exchanges w0).
      { intros h. cbn. case_decide as Hd; [congruence|].
        rewrite list_elem_of_filter. tauto. }
      assert (Hclose : EvResponseClose (exchanges w0) ∈
          trace (released (exchanges w0)
                 (set_open_responses
                    (exchanges w0 :: open_responses (attempted rq t w0))
                    (attempted rq t w0)))).
      { cbn. rewrite !elem_of_app. right. apply list_elem_of_singleton. reflexivity. }
      destruct text as [s|e].
      + eexists _, _. split; [reflexivity|]. split; [|split].
        * intros h Hh. destruct (Hopen h Hh). split; [assumption | intros; assumption].
        * intros c tx [= <- <-]. split; [exact Hclose | reflexivity].
        * intros c l. discriminate.
      + rewrite dispatch_classify.
        destruct (isinstance e Exception); eexists _, _;
          (split; [reflexivity|]); (split; [|split]);
          try (intros c l; discriminate).
        all: try (intros h Hh; destruct (Hopen h Hh); split; [assumption | intros; assumption]).
        all: intros c tx [= <- <-]; split; [exact Hclose | eexists; reflexivity]. }
  split; [apply Hone|].
  unfold request, bind, _prepare_request, emit, ret. cbn.
  match goal with |- context [_internal_request ?rq ?s ?t ?w0] =>
    destruct (Hone rq t w0) as (r & w' & Hrun & Hopen & _ & Hlive) end.
  exists r, w'. split; [exact Hrun|]. split; [|exact Hlive].
  intros h Hh. apply (Hopen h Hh).
Qed.

(** ** The retry loop *)

Lemma attempt_once_eq (method url : string) (prepared : PreparedRequest)
    (stream : bool) (backoff : timer) (w : World) :
  attempt_once method url prepared stream backoff w =
    let timeout := Qmax (Qmax 0 (_deadline backoff - clock w))
                     min_connection_timeout in
    match _internal_request prepared stream timeout w with
    | (Ok r, w1) => (Ok (Return r), w1)
    | (Raise e, w1) =>
        if isinstance e Exception then
          if _should_retry None (Some e) (get_num_retries backoff) then
            let w2 := set_trace (trace w1 ++ [EvLogRetryable e]) w1 in
            let d := Qmax 0 (_deadline backoff - clock w2) in
            let w3 := set_trace
                        (trace w2 ++
                         [EvLogStartingRetry (get_num_retries backoff + 1)
                            method url d]) w2 in
            match sleep_until_deadline backoff w3 with
            | (Ok b, w4) => (Ok (Continue b), w4)
            | (Raise e', w4) => (Raise e', w4)
            end
          else (Raise e, w1)
        else (Raise e, w1)
    end.
Proof.
  unfold attempt_once, bind at 1. cbn [get_timeout get_time_until_deadline bind time_time ret].
  cbv zeta. unfold bind at 1, capture, try_except, bind at 1.
  destruct (_internal_request _ _ _ w) as [[r|e] w1]; [reflexivity|].
  cbn [dispatch]. destruct (isinstance e Exception); [|reflexivity].
  cbn [ret]. destruct (_should_retry None (Some e) _); reflexivity.
Qed.

Lemma should_retry_true_iff (response : option (Z * content))
    (exception : option exception) (n : nat) :
  _should_retry response exception n = true <->
    response = None /\
    exists e, exception = Some e /\ should_retry e = Some true /\
              (n < max_network_retries)%nat.
Proof.
  unfold _should_retry. split.
  - destruct response; [discriminate|].
    destruct exception as [e|]; [|discriminate].
    destruct (should_retry e) as [[|]|] eqn:Hsr; try discriminate.
    intros H. apply negb_true_iff, Nat.leb_gt in H. eauto.
  - intros (-> & e & -> & -> & Hlt).
    apply negb_true_iff, Nat.leb_gt. exact Hlt.
Qed.

(** C2: a turn of the loop whose attempt succeeded declines the retry and
    makes [request_with_backoff] return that outcome; a turn goes on to
    another attempt only after an error whose [should_retry] flag is true,
    with the retry count still below [max_network_retries]; and a declined
    retry after a failed attempt raises that error. *)
Theorem retry_decision (fuel : nat) (method url : string)
    (prepared : PreparedRequest) (stream : bool) (backoff : timer)
    (w : World) :
  let timeout := Qmax (Qmax 0 (_deadline backoff - clock w))
                   min_connection_timeout in
  (forall r w1,
     _internal_request prepared stream timeout w = (Ok r, w1) ->
     _should_retry (Some r) None (get_num_retries backoff) = false /\
     attempt_once method url prepared stream backoff w = (Ok (Return r), w1) /\
     while_true (S fuel) (attempt_once method url prepared stream) backoff w
       = Some (Ok r, w1)) /\
  (forall backoff' w',
     attempt_once method url prepared stream backoff w
       = (Ok (Continue backoff'), w') ->
     exists e w1,
       _internal_request prepared stream timeout w = (Raise e, w1) /\
       should_retry e = Some true /\
       (get_num_retries backoff < max_network_retries)%nat /\
       get_num_retries backoff' = (get_num_retries backoff + 1)%nat) /\
  (forall e w1,
     _internal_request prepared stream timeout w = (Raise e, w1) ->
     should_retry e ≠ Some true \/
     (max_network_retries <= get_num_retries backoff)%nat ->
     while_true (S fuel) (attempt_once method url prepared stream) backoff w
       = Some (Raise e, w1)) /\
  (forall response exception n,
     _should_retry response exception n = true <->
       response = None /\
       exists e, exception = Some e /\ should_retry e = Some true /\
                 (n < max_network_retries)%nat).
Proof.
  intros timeout. split; [|split; [|split]].
  - intros r w1 Hrun.
    assert (Hturn : attempt_once method url prepared stream backoff w
                    = (Ok (Return r), w1)).
    { rewrite attempt_once_eq. cbv zeta. fold timeout. rewrite Hrun. reflexivity. }
    split; [reflexivity|]. split; [exact Hturn|].
    cbn [while_true]. rewrite Hturn. reflexivity.
  - intros backoff' w'. rewrite attempt_once_eq. cbv zeta. fold timeout.
    destruct (_internal_request _ _ _ w) as [[r|e] w1]; [discriminate|].
    destruct (isinstance e Exception); [|discriminate].
    destruct (_should_retry None (Some e) _) eqn:Hsr; [|discriminate].
    apply should_retry_true_iff in Hsr as (_ & e' & [= <-] & Hflag & Hlt).
    rewrite sleep_until_deadline_eq. cbv zeta. intros [= <- <-].
    exists e, w1. repeat split; assumption.
  - intros e w1 Hrun Hdecl. cbn [while_true].
    rewrite attempt_once_eq. cbv zeta. fold timeout. rewrite Hrun.
    destruct (isinstance e Exception); [|reflexivity].
    destruct (_should_retry None (Some e) _) eqn:Hsr; [|reflexivity].
    apply should_retry_true_iff in Hsr as (_ & e' & [= <-] & Hflag & Hlt).
    destruct Hdecl as [Hne | Hge]; [congruence | lia].
  - apply should_retry_true_iff.
Qed.

Lemma retryable_is_Exception (e : exception) :
  retryable_class e = true -> isinstance e Exception = true.
Proof.
  unfold retryable_class, isinstance.
  destruct e as [c s f]; destruct c; vm_compute; congruence.
Qed.

Lemma internal_request_fails (prepared : PreparedRequest) (stream : bool)
    (timeout : Q) (w : World) (e0 : exception) :
  server (exchanges w) prepared timeout = Fails e0 ->
  isinstance e0 Exception = true ->
  exists message,
    dispatch classify e0 (attempted prepared timeout w) =
      (Raise (new_ConnectionException message (retryable_class e0)),
       attempted prepared timeout w) /\
    _internal_request prepared stream timeout w =
      (Raise (new_ConnectionException message (retryable_class e0)),
       attempted prepared timeout w).
Proof.
  intros Hs He. rewrite internal_request_eq. cbv zeta. rewrite Hs.
  rewrite dispatch_classify, He. eexists. split; reflexivity.
Qed.

Lemma ConnectionException_is_Exception (message : string) (flag : bool) :
  isinstance (new_ConnectionException message flag) Exception = true.
Proof. reflexivity. Qed.

Lemma should_retry_flagged (message : string) (flag : bool) (n : nat) :
  _should_retry None (Some (new_ConnectionException message flag)) n =
    flag && negb (max_network_retries <=? n)%nat.
Proof. destruct flag; reflexivity. Qed.

Lemma loop_always_failing (method url : string) (prepared : PreparedRequest)
    (stream : bool) :
  (forall n t, exists e0,
     server n prepared t = Fails e0 /\ retryable_class e0 = true) ->
  forall k backoff w fuel,
    (get_num_retries backoff + k = max_network_retries)%nat ->
    (k < fuel)%nat ->
    exists e w',
      while_true fuel (attempt_once method url prepared stream) backoff w
        = Some (Raise e, w') /\
      exchanges w' = (exchanges w + k + 1)%nat /\
      exc_type e = ConnectionException /\
      should_retry e = Some true /\
      exists t e0 w0,
        server (exchanges w + k) prepared t = Fails e0 /\
        dispatch classify e0 w0 = (Raise e, w0).
Proof.
  intros Hserver. induction k as [|k IH]; intros backoff w fuel Hnum Hfuel;
    (destruct fuel as [|fuel]; [lia|]); cbn [while_true];
    rewrite attempt_once_eq; cbv zeta;
    set (t := Qmax _ min_connection_timeout);
    destruct (Hserver (exchanges w) t) as (e0 & Hs & Hre);
    destruct (internal_request_fails prepared stream t w e0 Hs
                (retryable_is_Exception _ Hre)) as (msg & Hd & Hrun);
    rewrite Hrun, Hre in *;
    rewrite ConnectionException_is_Exception, should_retry_flagged.
  - (* the retry count has reached the cap: the error is raised *)
    replace (max_network_retries <=? get_num_retries backoff)%nat with true
      by (symmetry; apply Nat.leb_le; lia).
    cbn [negb andb]. eexists _, _. split; [reflexivity|].
    split; [cbn; lia|]. split; [reflexivity|]. split; [reflexivity|].
    exists t, e0, (attempted prepared t w).
    rewrite Nat.add_0_r. split; assumption.
  - (* below the cap: sleep, then one retry fewer is left *)
    replace (max_network_retries <=? get_num_retries backoff)%nat with false
      by (symmetry; apply Nat.leb_gt; lia).
    cbn [negb andb]. rewrite sleep_until_deadline_eq. cbv beta iota zeta.
    match goal with |- context [while_true fuel _ ?b ?w4] =>
      destruct (IH b w4 fuel)
        as (e & w' & Hloop & Hex & Hty & Hsr & t' & e1 & w0 & Hlast & Hcl)
    end.
    { unfold get_num_retries in *. cbn [_num_retries]. lia. }
    { lia. }
    exists e, w'. split; [exact Hloop|].
    cbn [exchanges set_draws set_trace set_clock attempted set_exchanges]
      in Hex, Hlast.
    split; [lia|]. split; [assumption|]. split; [assumption|].
    exists t', e1, w0. split; [|assumption].
    replace (exchanges w + S k)%nat with (S (exchanges w) + k)%nat by lia.
    exact Hlast.
Qed.

(** C1: against an endpoint on which every exchange fails with a timeout or
    a connection failure, [request_with_backoff] performs exactly
    [max_network_retries + 1] round trips and raises the classified error
    of the last one; when the first exchange fails with any other
    exception, it performs one round trip and raises the classified,
    non-retryable error at once, without sleeping. *)
Theorem attempts_bounded (fuel : nat) (method url : string)
    (data json : option (gmap string string)) (hdrs : gmap string string)
    (stream : bool) (w : World) :
  (max_network_retries < fuel)%nat ->
  let prepared := {| req_method := method; req_url := url; req_data := data;
                     req_json := json; req_headers := hdrs |} in
  ((forall n t, exists e0,
      server n prepared t = Fails e0 /\ retryable_class e0 = true) ->
   exists e w',
     request_with_backoff fuel method url data json hdrs stream w
       = Some (Raise e, w') /\
     exchanges w' = (exchanges w + (max_network_retries + 1))%nat /\
     exc_type e = ConnectionException /\
     should_retry e = Some true /\
     exists t e0 w0,
       server (exchanges w + max_network_retries) prepared t = Fails e0 /\
       dispatch classify e0 w0 = (Raise e, w0)) /\
  (forall e0,
     (forall t, server (exchanges w) prepared t = Fails e0) ->
     isinstance e0 Exception = true ->
     retryable_class e0 = false ->
     exists (e : exception) (w' : World) (t : Q),
       request_with_backoff fuel method url data json hdrs stream w
         = Some (Raise e, w') /\
       exchanges w' = (exchanges w + 1)%nat /\
       exc_type e = ConnectionException /\
       should_retry e = Some false /\
       dispatch classify e0 w' = (Raise e, w') /\
       trace w' = (trace w ++ [EvPrepare prepared; EvAttempt prepared t])%list).
Proof.
  intros Hfuel prepared.
  assert (Hstart : request_with_backoff fuel method url data json hdrs stream w =
    while_true fuel (attempt_once method url prepared stream)
      {| _backoff := BACKOFF_INITIAL; _deadline := clock w + BACKOFF_INITIAL;
         _num_retries := 0 |}
      (set_trace (trace w ++ [EvPrepare prepared]) w)) by reflexivity.
  split.
  - intros Hserver.
    destruct (loop_always_failing method url prepared stream Hserver
                max_network_retries
                {| _backoff := BACKOFF_INITIAL;
                   _deadline := clock w + BACKOFF_INITIAL; _num_retries := 0 |}
                (set_trace (trace w ++ [EvPrepare prepared]) w) fuel)
      as (e & w' & Hloop & Hex & Hty & Hsr & Hlast); [reflexivity | exact Hfuel |].
    exists e, w'. rewrite Hstart. split; [exact Hloop|].
    cbn [exchanges set_trace] in Hex, Hlast.
    split; [lia|]. split; [assumption|]. split; assumption.
  - intros e0 Hs Hexc Hnr. rewrite Hstart.
    destruct fuel as [|fuel]; [lia|]. cbn [while_true].
    rewrite attempt_once_eq. cbv zeta.
    set (w1 := set_trace (trace w ++ [EvPrepare prepared]) w).
    set (t := Qmax _ min_connection_timeout).
    destruct (internal_request_fails prepared stream t w1 e0 (Hs t) Hexc)
      as (msg & Hd & Hrun).
    rewrite Hrun, Hnr in *.
    rewrite ConnectionException_is_Exception, should_retry_flagged.
    cbn [andb]. eexists _, _, t. split; [reflexivity|].
    split; [cbn; lia|]. split; [reflexivity|]. split; [reflexivity|].
    split; [exact Hd|]. cbn. rewrite <- app_assoc. reflexivity.
Qed.

Lemma internal_request_trace (prepared : PreparedRequest) (stream : bool)
    (timeout : Q) (w : World) :
  exists r w' evs,
    _internal_request prepared stream timeout w = (r, w') /\
    trace w' = (trace w ++ EvAttempt prepared timeout :: evs)%list /\
    Forall (reuses prepared) evs /\
    exchanges w' = S (exchanges w).
Proof.
  rewrite internal_request_eq. cbv zeta.
  destruct (server _ _ _) as [e|code text].
  - rewrite dispatch_classify. destruct (isinstance e Exception);
      eexists _, _, []; (split; [reflexivity|]); repeat split; constructor.
  - destruct stream.
    + eexists _, _, []. split; [reflexivity|]. repeat split; constructor.
    + destruct text as [s|e].
      * eexists _, _, [EvResponseClose (exchanges w)].
        split; [reflexivity|]. cbn. rewrite <- app_assoc.
        repeat split; repeat constructor.
      * rewrite dispatch_classify. destruct (isinstance e Exception);
          eexists _, _, [EvResponseClose (exchanges w)];
          (split; [reflexivity|]); cbn; rewrite <- app_assoc;
          repeat split; repeat constructor.
Qed.

Lemma attempt_once_trace (method url : string) (prepared : PreparedRequest)
    (stream : bool) (backoff : timer) (w : World) :
  exists r w' t evs,
    attempt_once method url prepared stream backoff w = (r, w') /\
    trace w' = (trace w ++ EvAttempt prepared t :: evs)%list /\
    Forall (reuses prepared) evs /\
    exchanges w' = S (exchanges w) /\
    (forall b, r = Ok (Continue b) ->
       (get_num_retries backoff < max_network_retries)%nat /\
       get_num_retries b = (get_num_retries backoff + 1)%nat).
Proof.
  rewrite attempt_once_eq. cbv zeta.
  set (t := Qmax _ min_connection_timeout).
  destruct (internal_request_trace prepared stream t w)
    as (r & w1 & evs & Hrun & Htr & Hall & Hex).
  assert (Hstop : forall r0 : result (step (Z * content) timer),
            (forall b, r0 ≠ Ok (Continue b)) ->
            exists r w' t evs,
              (r0, w1) = (r, w') /\
              trace w' = (trace w ++ EvAttempt prepared t :: evs)%list /\
              Forall (reuses prepared) evs /\
              exchanges w' = S (exchanges w) /\
              (forall b, r = Ok (Continue b) ->
                 (get_num_retries backoff < max_network_retries)%nat /\
                 get_num_retries b = (get_num_retries backoff + 1)%nat)).
  { intros r0 Hr0. exists r0, w1, t, evs.
    split; [reflexivity|]. split; [assumption|]. split; [assumption|].
    split; [assumption|]. intros b Hb. destruct (Hr0 b Hb). }
  rewrite Hrun. destruct r as [r|e]; [apply Hstop; discriminate|].
  destruct (isinstance e Exception); [|apply Hstop; discriminate].
  destruct (_should_retry None (Some e) _) eqn:Hsr; [|apply Hstop; discriminate].
  apply should_retry_true_iff in Hsr as (_ & e' & [= <-] & Hflag & Hlt).
  rewrite sleep_until_deadline_eq. cbv beta iota zeta.
  eexists _, _, t, (evs ++ [_; _; _])%list. split; [reflexivity|].
  split; [|split; [|split]].
  - cbn. rewrite Htr. rewrite <- !app_assoc. reflexivity.
  - apply Forall_app. split; [assumption|]. repeat constructor.
  - cbn. exact Hex.
  - intros b [= <-]. split; [assumption | reflexivity].
Qed.

Lemma loop_runs (method url : string) (prepared : PreparedRequest)
    (stream : bool) :
  forall k backoff w fuel,
    (get_num_retries backoff + k = max_network_retries)%nat ->
    (k < fuel)%nat ->
    exists r w' t evs,
      while_true fuel (attempt_once method url prepared stream) backoff w
        = Some (r, w') /\
      trace w' = (trace w ++ EvAttempt prepared t :: evs)%list /\
      Forall (reuses prepared) evs /\
      (exchanges w < exchanges w' <= exchanges w + k + 1)%nat.
Proof.
  induction k as [|k IH]; intros backoff w fuel Hnum Hfuel;
    (destruct fuel as [|fuel]; [lia|]); cbn [while_true];
    destruct (attempt_once_trace method url prepared stream backoff w)
      as (r & w1 & t & evs & Hturn & Htr & Hall & Hex & Hcont);
    rewrite Hturn; destruct r as [[r|b]|e].
  - exists (Ok r), w1, t, evs. repeat split; try assumption; lia.
  - destruct (Hcont b eq_refl). lia.
  - exists (Raise e), w1, t, evs. repeat split; try assumption; lia.
  - exists (Ok r), w1, t, evs. repeat split; try assumption; lia.
  - destruct (Hcont b eq_refl) as [Hlt Hb].
    destruct (IH b w1 fuel) as (r' & w' & t' & evs' & Hloop & Htr' & Hall' & Hex');
      [lia | lia |].
    exists r', w', t, (evs ++ EvAttempt prepared t' :: evs')%list.
    split; [exact Hloop|]. split; [|split].
    + rewrite Htr', Htr, <- app_assoc. reflexivity.
    + apply Forall_app. split; [assumption|].
      constructor; [reflexivity | assumption].
    + lia.
  - exists (Raise e), w1, t, evs. repeat split; try assumption; lia.
Qed.

Lemma request_with_backoff_start (fuel : nat) (method url : string)
    (data json : option (gmap string string)) (hdrs : gmap string string)
    (stream : bool) (w : World) :
  let prepared := {| req_method := method; req_url := url; req_data := data;
                     req_json := json; req_headers := hdrs |} in
  request_with_backoff fuel method url data json hdrs stream w =
    while_true fuel (attempt_once method url prepared stream)
      {| _backoff := BACKOFF_INITIAL; _deadline := clock w + BACKOFF_INITIAL;
         _num_retries := 0 |}
      (set_trace (trace w ++ [EvPrepare prepared]) w).
Proof. reflexivity. Qed.

(** C8: every call of [request_with_backoff] builds the descriptor once,
    before the first attempt, and every attempt of that call, the first one
    and each retry, is issued with that same descriptor; with enough fuel
    for [max_network_retries + 1] turns the call finishes. *)
Theorem descriptor_built_once (fuel : nat) (method url : string)
    (data json : option (gmap string string)) (hdrs : gmap string string)
    (stream : bool) (w : World) :
  (max_network_retries < fuel)%nat ->
  let prepared := {| req_method := method; req_url := url; req_data := data;
                     req_json := json; req_headers := hdrs |} in
  exists r w' (t : Q) evs,
    request_with_backoff fuel method url data json hdrs stream w
      = Some (r, w') /\
    trace w' =
      (trace w ++ EvPrepare prepared :: EvAttempt prepared t :: evs)%list /\
    Forall (reuses prepared) evs /\
    (exchanges w < exchanges w' <= exchanges w + max_network_retries + 1)%nat.
Proof.
  intros Hfuel prepared.
  destruct (loop_runs method url prepared stream max_network_retries
              {| _backoff := BACKOFF_INITIAL;
                 _deadline := clock w + BACKOFF_INITIAL; _num_retries := 0 |}
              (set_trace (trace w ++ [EvPrepare prepared]) w) fuel)
    as (r & w' & t & evs & Hloop & Htr & Hall & Hex); [reflexivity | exact Hfuel |].
  exists r, w', t, evs. rewrite request_with_backoff_start. cbv zeta.
  split; [exact Hloop|].
  cbn [trace exchanges set_trace] in Htr, Hex.
  split; [|split; assumption].
  rewrite Htr, <- app_assoc. reflexivity.
Qed.

(** ** The façade *)

Lemma update_absent_lookup (h defaults : gmap string string) (k : string) :
  update_absent h defaults !! k =
    match h !! k with
    | Some v => Some v
    | None => defaults !! k
    end.
Proof.
  unfold update_absent. rewrite lookup_union.
  destruct (h !! k) as [v|] eqn:Hh.
  - rewrite map_lookup_filter_None_2; [reflexivity|].
    right. intros x _. cbn. congruence.
  - destruct (defaults !! k) as [x|] eqn:Hd.
    + erewrite map_lookup_filter_Some_2; [reflexivity | exact Hd | exact Hh].
    + rewrite map_lookup_filter_None_2; [reflexivity | left; exact Hd].
Qed.

Lemma api_call_runs (fuel : nat) (self : Translator) (url method : string)
    (data json : option (gmap string string)) (stream : bool)
    (headers_arg : option (gmap string string)) (w : World) :
  (max_network_retries < fuel)%nat ->
  data = None \/ json = None ->
  let prepared :=
    {| req_method := method;
       req_url := urljoin (_server_url self) url;
       req_data := Some match data with None => ∅ | Some d => d end;
       req_json := json;
       req_headers :=
         update_absent match headers_arg with None => ∅ | Some h => h end
           (headers self) |} in
  exists r w' evs,
    _api_call fuel self url method data json stream headers_arg w
      = Some (r, w') /\
    trace w' =
      (trace w ++ EvLog "Request to DeepL API" :: EvLog "Request details"
         :: EvPrepare prepared :: evs)%list.
Proof.
  intros Hfuel Hone prepared. unfold _api_call.
  replace (bool_decide (data ≠ None) && bool_decide (json ≠ None)) with false
    by (destruct Hone as [-> | ->]; [reflexivity | destruct data; reflexivity]).
  unfold bindF at 1. cbn [lift bind emit ret].
  set (w0 := set_trace _ (set_trace _ w)).
  unfold bindF at 1.
  rewrite request_with_backoff_start. cbv zeta. fold prepared.
  destruct (loop_runs method (urljoin (_server_url self) url) prepared stream
              max_network_retries
              {| _backoff := BACKOFF_INITIAL;
                 _deadline := clock w0 + BACKOFF_INITIAL; _num_retries := 0 |}
              (set_trace (trace w0 ++ [EvPrepare prepared]) w0) fuel)
    as (r & w1 & t & evs & Hrun & Htr & _ & _); [reflexivity | exact Hfuel |].
  rewrite Hrun.
  assert (Htr0 : trace w1 =
    (trace w ++ EvLog "Request to DeepL API" :: EvLog "Request details"
       :: EvPrepare prepared :: EvAttempt prepared t :: evs)%list).
  { rewrite Htr. subst w0. cbn. rewrite <- !app_assoc. reflexivity. }
  destruct r as [[code body]|e].
  - destruct body as [s|live]; eexists _, _, _; (split; [reflexivity|]);
      cbn; rewrite Htr0, <- ?app_assoc; cbn; reflexivity.
  - eexists _, _, _. split; [reflexivity | exact Htr0].
Qed.

(** C10: in [_api_call] every entry of the caller's header mapping reaches
    the transport unchanged, and the instance's default headers, among them
    the [Authorization] header set at construction, are added only under
    keys the caller's mapping lacks; a caller's own [Authorization] entry
    therefore wins over the default. *)
Theorem caller_headers_take_precedence (fuel : nat) (auth_key : string)
    (server_url : option string) (self : Translator) (url method : string)
    (data json : option (gmap string string)) (stream : bool)
    (h : gmap string string) (w0 w1 w : World) :
  (max_network_retries < fuel)%nat ->
  data = None \/ json = None ->
  Translator_init auth_key server_url w0 = (Ok self, w1) ->
  exists r w' prepared evs,
    _api_call fuel self url method data json stream (Some h) w
      = Some (r, w') /\
    trace w' =
      (trace w ++ EvLog "Request to DeepL API" :: EvLog "Request details"
         :: EvPrepare prepared :: evs)%list /\
    (forall k v, h !! k = Some v -> req_headers prepared !! k = Some v) /\
    (forall k, h !! k = None ->
       req_headers prepared !! k = headers self !! k) /\
    headers self !! "Authorization" = Some ("DeepL-Auth-Key " +:+ auth_key) /\
    req_headers prepared !! "Authorization" =
      match h !! "Authorization" with
      | Some v => Some v
      | None => Some ("DeepL-Auth-Key " +:+ auth_key)
      end.
Proof.
  intros Hfuel Hone Hinit.
  destruct (api_call_runs fuel self url method data json stream (Some h) w
              Hfuel Hone) as (r & w' & evs & Hrun & Htr).
  assert (Hauth : headers self !! "Authorization"
                  = Some ("DeepL-Auth-Key " +:+ auth_key)).
  { unfold Translator_init in Hinit. case_bool_decide; [discriminate|].
    injection Hinit as <- _. cbn [headers]. apply lookup_singleton_eq. }
  eexists r, w', _, evs. split; [exact Hrun|]. split; [exact Htr|].
  cbn [req_headers]. split; [|split; [|split]].
  - intros k v Hk. rewrite update_absent_lookup, Hk. reflexivity.
  - intros k Hk. rewrite update_absent_lookup, Hk. reflexivity.
  - exact Hauth.
  - rewrite update_absent_lookup, Hauth. reflexivity.
Qed.

(** C7, as the code has it: the check sits in the façade.  [_api_call]
    with both [data] and [json] given raises a [ValueError] before it
    touches the transport: nothing is logged, prepared, sent or retried,
    whatever the fuel.  The transport's own [request] makes no such check:
    it prepares the descriptor with both bodies and performs its round
    trip. *)
Theorem both_bodies_rejected_by_facade (fuel : nat) (self : Translator)
    (url method : string) (d j : gmap string string) (stream : bool)
    (headers_arg : option (gmap string string)) (hdrs : gmap string string)
    (w : World) :
  (exists e,
     _api_call fuel self url method (Some d) (Some j) stream headers_arg w
       = Some (Raise e, w) /\
     exc_type e = ValueError /\
     isinstance e ConnectionException = false /\
     should_retry e = None) /\
  (exists r w',
     request method url (Some d) (Some j) hdrs stream w = (r, w') /\
     exchanges w' = S (exchanges w) /\
     isinstance_result r ValueError = false).
Proof.
  split.
  - eexists. split; [reflexivity|]. repeat split.
  - unfold request, bind, _prepare_request, emit, ret. cbn.
    match goal with |- context [_internal_request ?rq ?s ?t ?w0] =>
      pose proof (internal_request_eq rq s t w0) as Heq; cbv zeta in Heq;
      destruct (internal_request_trace rq s t w0) as (r & w' & evs & Hrun & _ & _ & Hex)
    end.
    exists r, w'. split; [exact Hrun|]. split; [exact Hex|].
    rewrite Hrun in Heq.
    destruct (server _ _ _) as [e|code text].
    + rewrite dispatch_classify in Heq.
      destruct (isinstance e Exception) eqn:He; injection Heq as -> _; [reflexivity|].
      cbn. destruct e as [c s0 f]; destruct c; try reflexivity; vm_compute in He; discriminate.
    + destruct stream; [injection Heq as -> _; reflexivity|].
      destruct text as [s0|e]; [injection Heq as -> _; reflexivity|].
      rewrite dispatch_classify in Heq.
      destruct (isinstance e Exception) eqn:He; injection Heq as -> _; [reflexivity|].
      cbn. destruct e as [c s0 f]; destruct c; try reflexivity; vm_compute in He; discriminate.
Qed.

(** C9, as the code has it: closing the façade closes the transport's
    session, and closing twice does not raise.  The finalizer never raises
    from the loop's state: with an idle loop it closes the session, with a
    running loop it schedules the close, and with the loop closed or gone
    it does nothing at all; its handler swallows every [RuntimeError],
    whatever the loop's state, and lets other exceptions through; in no
    case does it log. *)
Theorem teardown_swallows_RuntimeError (w : World) :
  (exists w', Translator_close w = (Ok tt, w') /\ session_closed w' = true) /\
  (exists w', (Translator_close ;;; Translator_close) w = (Ok tt, w') /\
              session_closed w' = true) /\
  (exists w', Translator_del w = (Ok tt, w') /\
              trace w' = trace w /\
              match loop w with
              | LoopIdle => w' = set_session_closed true w
              | LoopRunning => w' = set_tasks (tasks w ++ [CoClientClose]) w
              | LoopClosed | NoLoop => w' = w
              end) /\
  (forall e w0,
     dispatch del_handlers e w0 =
       if isinstance e RuntimeError then (Ok tt, w0) else (Raise e, w0)).
Proof.
  split; [|split; [|split]].
  - eexists. split; reflexivity.
  - eexists. split; reflexivity.
  - unfold Translator_del, try_except, bind, asyncio_get_event_loop,
      loop_is_running, loop_create_task, loop_run_until_complete.
    destruct (loop w) eqn:Hl; cbn; rewrite ?Hl; cbn;
      eexists; repeat split; reflexivity.
  - intros e w0. unfold del_handlers. cbn [dispatch].
    destruct (isinstance e RuntimeError); reflexivity.
Qed.

(** * Further properties of the code *)

(** ** The timer over several sleeps *)

Lemma scaled_nonneg (b : Q) (n : nat) :
  0 <= BACKOFF_MULTIPLIER -> 0 <= b -> 0 <= scaled b n.
Proof.
  intros HM Hb. induction n as [|n IH]; cbn; [assumption|].
  apply Qmult_le_0_compat; assumption.
Qed.

Lemma capped_step (x y : Q) :
  1 <= BACKOFF_MULTIPLIER -> 0 <= BACKOFF_MAX -> 0 <= y ->
  x == Qmin y BACKOFF_MAX ->
  Qmin (x * BACKOFF_MULTIPLIER) BACKOFF_MAX
    == Qmin (y * BACKOFF_MULTIPLIER) BACKOFF_MAX.
Proof.
  intros HM HX Hy Hx.
  destruct (Q.min_spec y BACKOFF_MAX) as [[H1 E1]|[H1 E1]];
    rewrite E1 in Hx.
  - rewrite Hx. reflexivity.
  - assert (Hxm : BACKOFF_MAX <= x * BACKOFF_MULTIPLIER).
    { rewrite Hx.
      assert (0 <= BACKOFF_MAX * (BACKOFF_MULTIPLIER - 1))
        by (apply Qmult_le_0_compat; lra).
      lra. }
    assert (Hym : BACKOFF_MAX <= y * BACKOFF_MULTIPLIER).
    { assert (0 <= y * (BACKOFF_MULTIPLIER - 1))
        by (apply Qmult_le_0_compat; lra).
      lra. }
    rewrite (Q.min_r _ _ Hxm), (Q.min_r _ _ Hym). reflexivity.
Qed.

(** X1: [n] consecutive sleeps on a timer whose backoff is non-negative
    leave the backoff at the smaller of [backoff * multiplier ^ n] and the
    cap, and the retry count raised by [n]. *)
Theorem sleeps_closed_form (n : nat) (self : timer) (w : World) :
  1 <= BACKOFF_MULTIPLIER -> 0 <= BACKOFF_MAX ->
  0 <= _backoff self <= BACKOFF_MAX ->
  exists self' w',
    sleeps n self w = (Ok self', w') /\
    _backoff self' == Qmin (scaled (_backoff self) n) BACKOFF_MAX /\
    get_num_retries self' = (get_num_retries self + n)%nat /\
    draws w' = (draws w + n)%nat.
Proof.
  intros HM HX [Hb0 Hb1]. induction n as [|n IH].
  - exists self, w. split; [reflexivity|]. cbn [scaled].
    split; [|split; [unfold get_num_retries; lia | lia]].
    rewrite Q.min_l; [reflexivity | assumption].
  - destruct IH as (t & w1 & Hrun & Hback & Hn & Hd).
    rewrite sleeps_succ, Hrun, sleep_until_deadline_eq. cbv zeta.
    eexists _, _. split; [reflexivity|].
    cbn [_backoff _num_retries get_num_retries draws set_draws scaled].
    split; [|split].
    + apply capped_step; try assumption.
      apply scaled_nonneg; [lra | assumption].
    + unfold get_num_retries in *. cbn [_num_retries]. lia.
    + cbn. lia.
Qed.

(** ** One attempt, in full *)

Lemma internal_request_events (prepared : PreparedRequest) (stream : bool)
    (timeout : Q) (w : World) :
  exists r w' evs,
    _internal_request prepared stream timeout w = (r, w') /\
    trace w' = (trace w ++ EvAttempt prepared timeout :: evs)%list /\
    (evs = [] \/ evs = [EvResponseClose (exchanges w)]) /\
    exchanges w' = S (exchanges w) /\
    clock w' = clock w /\ draws w' = draws w.
Proof.
  rewrite internal_request_eq. cbv zeta.
  destruct (server _ _ _) as [e|code text].
  - rewrite dispatch_classify. destruct (isinstance e Exception);
      eexists _, _, []; (split; [reflexivity|]); repeat split; left; reflexivity.
  - destruct stream.
    + eexists _, _, []. split; [reflexivity|]. repeat split. left; reflexivity.
    + destruct text as [s|e].
      * eexists _, _, [EvResponseClose (exchanges w)].
        split; [reflexivity|]. cbn. rewrite <- app_assoc.
        repeat split. right; reflexivity.
      * rewrite dispatch_classify. destruct (isinstance e Exception);
          eexists _, _, [EvResponseClose (exchanges w)];
          (split; [reflexivity|]); cbn; rewrite <- app_assoc;
          repeat split; right; reflexivity.
Qed.

(** X2: [request] makes exactly one round trip, with the minimum
    connection timeout, and never sleeps, logs a retry or tries again, also
    when the failure is one the backoff loop would retry. *)
Theorem request_is_one_attempt (method url : string)
    (data json : option (gmap string string)) (hdrs : gmap string string)
    (stream : bool) (w : World) :
  let prepared := {| req_method := method; req_url := url; req_data := data;
                     req_json := json; req_headers := hdrs |} in
  exists r w' evs,
    request method url data json hdrs stream w = (r, w') /\
    trace w' =
      (trace w ++ EvPrepare prepared
         :: EvAttempt prepared min_connection_timeout :: evs)%list /\
    (evs = [] \/ evs = [EvResponseClose (exchanges w)]) /\
    exchanges w' = S (exchanges w) /\
    clock w' = clock w /\
    (forall e0,
       server (exchanges w) prepared min_connection_timeout = Fails e0 ->
       retryable_class e0 = true ->
       exists message, r = Raise (new_ConnectionException message true)).
Proof.
  intros prepared.
  assert (Hreq : request method url data json hdrs stream w =
            _internal_request prepared stream min_connection_timeout
              (set_trace (trace w ++ [EvPrepare prepared]) w)) by reflexivity.
  destruct (internal_request_events prepared stream min_connection_timeout
              (set_trace (trace w ++ [EvPrepare prepared]) w))
    as (r & w' & evs & Hrun & Htr & Hevs & Hex & Hclk & _).
  exists r, w', evs. rewrite Hreq. split; [exact Hrun|].
  cbn [trace exchanges clock set_trace] in Htr, Hevs, Hex, Hclk.
  split; [rewrite Htr, <- app_assoc; reflexivity|].
  split; [exact Hevs|]. split; [exact Hex|]. split; [exact Hclk|].
  intros e0 Hs Hre.
  destruct (internal_request_fails prepared stream min_connection_timeout
              (set_trace (trace w ++ [EvPrepare prepared]) w) e0 Hs
              (retryable_is_Exception _ Hre)) as (msg & _ & Hrun').
  rewrite Hrun' in Hrun. injection Hrun as <- _.
  exists msg. rewrite Hre. reflexivity.
Qed.


(** X4: an exception that is not an [Exception] (a cancellation) is
    neither classified nor retried: [_internal_request] re-raises it as it
    is, and the backoff loop raises it after that one attempt, whatever
    the retry count, without sleeping; a response whose body was being read
    has been closed. *)
Theorem cancellation_passes_through (fuel : nat) (method url : string)
    (prepared : PreparedRequest) (stream : bool) (backoff : timer)
    (w : World) (e0 : exception) :
  let timeout := Qmax (Qmax 0 (_deadline backoff - clock w))
                   min_connection_timeout in
  isinstance e0 Exception = false ->
  server (exchanges w) prepared timeout = Fails e0 \/
  (stream = false /\
   exists code, server (exchanges w) prepared timeout = Responds code (Raise e0)) ->
  exists w',
    _internal_request prepared stream timeout w = (Raise e0, w') /\
    while_true (S fuel) (attempt_once method url prepared stream) backoff w
      = Some (Raise e0, w') /\
    exchanges w' = S (exchanges w) /\
    clock w' = clock w /\
    (forall h, h ∈ open_responses w' -> h ∈ open_responses w).
Proof.
  intros timeout Hexc Hfail.
  assert (Hloop : forall w',
     _internal_request prepared stream timeout w = (Raise e0, w') ->
     while_true (S fuel) (attempt_once method url prepared stream) backoff w
       = Some (Raise e0, w')).
  { intros w' Hrun. cbn [while_true]. rewrite attempt_once_eq. cbv zeta.
    fold timeout. rewrite Hrun, Hexc. reflexivity. }
  pose proof (internal_request_eq prepared stream timeout w) as Heq.
  cbv zeta in Heq.
  destruct Hfail as [Hs | (-> & code & Hs)]; rewrite Hs in Heq;
    rewrite dispatch_classify, Hexc in Heq; eexists;
    (split; [exact Heq|]); (split; [apply Hloop; exact Heq|]);
    (split; [reflexivity|]); (split; [reflexivity|]).
  - intros h Hh. exact Hh.
  - intros h Hh.
    change (h ∈ filter (fun h0 => h0 ≠ exchanges w)
                  (exchanges w :: open_responses w)) in Hh.
    apply list_elem_of_filter in Hh as [Hne Hin].
    apply elem_of_cons in Hin as [-> | Hin];
      [destruct (Hne eq_refl) | exact Hin].
Qed.

(** X5: the message of the raised [ConnectionException] is the prefix of
    the first matching clause followed by [str] of the underlying
    exception; a server timeout, though also a connection error, is
    reported as a timeout. *)
Theorem classified_message (prepared : PreparedRequest) (stream : bool)
    (timeout : Q) (w : World) (e0 : exception) :
  isinstance e0 Exception = true ->
  server (exchanges w) prepared timeout = Fails e0 ->
  exists e w',
    _internal_request prepared stream timeout w = (Raise e, w') /\
    exc_type e = ConnectionException /\
    (isinstance e0 ServerTimeoutError = true ->
       isinstance e0 ClientConnectionError = true /\
       exc_str e = "Request timed out: " +:+ exc_str e0) /\
    (isinstance e0 ServerTimeoutError = false ->
     isinstance e0 ClientConnectionError = true ->
       exc_str e = "Connection failed: " +:+ exc_str e0) /\
    (isinstance e0 ClientResponseError = true ->
       exc_str e = "Request failed: " +:+ exc_str e0) /\
    (isinstance e0 ServerTimeoutError = false ->
     isinstance e0 ClientConnectionError = false ->
     isinstance e0 ClientResponseError = false ->
       exc_str e = "Unexpected request failure: " +:+ exc_str e0).
Proof.
  intros Hexc Hs. rewrite internal_request_eq. cbv zeta. rewrite Hs.
  rewrite dispatch_classify, Hexc. eexists _, _. split; [reflexivity|].
  split; [reflexivity|]. cbn [exc_str new_ConnectionException].
  split; [|split; [|split]].
  - intros Ht. rewrite Ht. split; [|reflexivity].
    revert Ht. unfold isinstance.
    destruct e0 as [c s f]; destruct c; vm_compute; congruence.
  - intros -> ->. reflexivity.
  - intros Hr. pose proof (response_error_not_retryable _ Hr) as Hn.
    unfold retryable_class in Hn. apply orb_false_iff in Hn as [-> ->].
    rewrite Hr. reflexivity.
  - intros -> -> ->. reflexivity.
Qed.

(** ** The retry loop, event by event *)

Lemma count_events_app (p : event -> bool) (a b : list event) :
  count_events p (a ++ b) = (count_events p a + count_events p b)%nat.
Proof. induction a as [|ev a IH]; cbn; [reflexivity | rewrite IH; lia]. Qed.

Lemma retry_numbers_app (a b : list event) :
  retry_numbers (a ++ b) = (retry_numbers a ++ retry_numbers b)%list.
Proof.
  induction a as [|ev a IH]; cbn; [reflexivity|].
  destruct ev; cbn; rewrite IH; reflexivity.
Qed.

(** Which responses an attempt can leave open, and what it can return. *)
Lemma internal_request_open (prepared : PreparedRequest) (stream : bool)
    (timeout : Q) (w : World) (r : result (Z * content)) (w' : World) :
  _internal_request prepared stream timeout w = (r, w') ->
  (forall h, h ∈ open_responses w' ->
     h ∈ open_responses w \/
     (stream = true /\ exists st live, r = Ok (st, Live live) /\ h = handle live)) /\
  (forall st c, r = Ok (st, c) ->
     match c with
     | Live live => stream = true /\ handle live ∈ open_responses w'
     | Text _ => stream = false
     end).
Proof.
  rewrite internal_request_eq. cbv zeta.
  assert (Hfilter : forall h,
    h ∈ filter (fun h0 => h0 ≠ exchanges w) (exchanges w :: open_responses w) ->
    h ∈ open_responses w).
  { intros h. rewrite list_elem_of_filter, elem_of_cons. intros [Hne [?|?]]; [congruence | assumption]. }
  destruct (server _ _ _) as [e|code text].
  - rewrite dispatch_classify. destruct (isinstance e Exception);
      intros [= <- <-]; (split; [intros h Hh; left; exact Hh | intros st c [=]]).
  - destruct stream.
    + intros [= <- <-]. split.
      * intros h Hh. cbn in Hh. apply elem_of_cons in Hh as [-> | Hh]; [|left; exact Hh].
        right. split; [reflexivity|]. eexists _, _. split; reflexivity.
      * intros st c [= <- <-]. split; [reflexivity|]. cbn. apply elem_of_cons. left; reflexivity.
    + destruct text as [s|e].
      * intros [= <- <-]. split.
        -- intros h Hh. left. apply Hfilter. exact Hh.
        -- intros st c [= <- <-]. reflexivity.
      * rewrite dispatch_classify. destruct (isinstance e Exception);
          intros [= <- <-]; (split; [intros h Hh; left; apply Hfilter; exact Hh | intros st c [=]]).
Qed.

Lemma attempt_once_events (method url : string) (prepared : PreparedRequest)
    (stream : bool) (backoff : timer) (w : World) :
  exists r w' evs,
    attempt_once method url prepared stream backoff w = (r, w') /\
    trace w' = (trace w ++ evs)%list /\
    exchanges w' = S (exchanges w) /\
    count_events is_attempt evs = 1%nat /\
    (forall h, h ∈ open_responses w' ->
       h ∈ open_responses w \/
       (stream = true /\
        exists st live, r = Ok (Return (st, Live live)) /\ h = handle live)) /\
    (forall st c, r = Ok (Return (st, c)) ->
       match c with
       | Live live => stream = true /\ handle live ∈ open_responses w'
       | Text _ => stream = false
       end) /\
    match r with
    | Ok (Continue b) =>
        count_events is_sleep evs = 1%nat /\
        retry_numbers evs = [(get_num_retries backoff + 1)%nat] /\
        (get_num_retries backoff < max_network_retries)%nat /\
        get_num_retries b = (get_num_retries backoff + 1)%nat
    | _ => count_events is_sleep evs = 0%nat /\ retry_numbers evs = []
    end.
Proof.
  rewrite attempt_once_eq. cbv zeta.
  set (t := Qmax _ min_connection_timeout).
  destruct (internal_request_events prepared stream t w)
    as (r1 & w1 & evs & Hrun & Htr & Hevs & Hex & _ & _).
  destruct (internal_request_open prepared stream t w r1 w1 Hrun)
    as [Hopen Hshape].
  assert (Hcounts : count_events is_attempt (EvAttempt prepared t :: evs) = 1%nat /\
                    count_events is_sleep (EvAttempt prepared t :: evs) = 0%nat /\
                    retry_numbers (EvAttempt prepared t :: evs) = []).
  { destruct Hevs as [-> | ->]; repeat split. }
  destruct Hcounts as (Hca & Hcs & Hrn).
  rewrite Hrun. destruct r1 as [[st c]|e].
  { (* the attempt returned: so does the turn *)
    exists (Ok (Return (st, c))), w1, (EvAttempt prepared t :: evs).
    split; [reflexivity|]. split; [exact Htr|]. split; [exact Hex|].
    split; [exact Hca|]. split; [|split; [|split; assumption]].
    - intros h Hh. destruct (Hopen h Hh) as [?|(Hst & st' & live & [= -> ->] & ->)];
        [left; assumption|].
      right. split; [assumption|]. eexists _, _. split; reflexivity.
    - intros st' c' [= <- <-]. exact (Hshape _ _ eq_refl). }
  assert (Hkept : forall h, h ∈ open_responses w1 -> h ∈ open_responses w).
  { intros h Hh. destruct (Hopen h Hh) as [?|(_ & st & live & [=] & _)]. assumption. }
  assert (Hraise : exists r w' evs0,
      (@Raise (step (Z * content) timer) e, w1) = (r, w') /\
      trace w' = (trace w ++ evs0)%list /\
      exchanges w' = S (exchanges w) /\
      count_events is_attempt evs0 = 1%nat /\
      (forall h, h ∈ open_responses w' ->
         h ∈ open_responses w \/
         (stream = true /\
          exists st live, r = Ok (Return (st, Live live)) /\ h = handle live)) /\
      (forall st c, r = Ok (Return (st, c)) ->
         match c with
         | Live live => stream = true /\ handle live ∈ open_responses w'
         | Text _ => stream = false
         end) /\
      match r with
      | Ok (Continue b) =>
          count_events is_sleep evs0 = 1%nat /\
          retry_numbers evs0 = [(get_num_retries backoff + 1)%nat] /\
          (get_num_retries backoff < max_network_retries)%nat /\
          get_num_retries b = (get_num_retries backoff + 1)%nat
      | _ => count_events is_sleep evs0 = 0%nat /\ retry_numbers evs0 = []
      end).
  { exists (Raise e), w1, (EvAttempt prepared t :: evs).
    split; [reflexivity|]. split; [exact Htr|]. split; [exact Hex|].
    split; [exact Hca|]. split; [|split; [|split; assumption]].
    - intros h Hh. left. apply Hkept. exact Hh.
    - intros st c [=]. }
  destruct (isinstance e Exception); [|exact Hraise].
  destruct (_should_retry None (Some e) _) eqn:Hsr; [|exact Hraise].
  apply should_retry_true_iff in Hsr as (_ & e' & [= <-] & Hflag & Hlt).
  rewrite sleep_until_deadline_eq. cbv beta iota zeta.
  eexists _, _, ((EvAttempt prepared t :: evs) ++ [_; _; _])%list.
  split; [reflexivity|]. split; [|split; [|split; [|split; [|split]]]].
  - cbn. rewrite Htr. rewrite <- !app_assoc. reflexivity.
  - cbn. exact Hex.
  - rewrite count_events_app, Hca. reflexivity.
  - intros h Hh. left. apply Hkept. exact Hh.
  - intros st c [=].
  - rewrite count_events_app, retry_numbers_app, Hcs, Hrn.
    repeat split. exact Hlt.
Qed.

Lemma loop_accounting (method url : string) (prepared : PreparedRequest)
    (stream : bool) :
  forall k backoff w fuel,
    (get_num_retries backoff + k = max_network_retries)%nat ->
    (k < fuel)%nat ->
    exists r w' evs j,
      while_true fuel (attempt_once method url prepared stream) backoff w
        = Some (r, w') /\
      trace w' = (trace w ++ evs)%list /\
      (j <= k)%nat /\
      count_events is_attempt evs = S j /\
      count_events is_sleep evs = j /\
      retry_numbers evs = seq (S (get_num_retries backoff)) j /\
      exchanges w' = (exchanges w + S j)%nat /\
      (forall h, h ∈ open_responses w' ->
         h ∈ open_responses w \/
         (stream = true /\
          exists st live, r = Ok (st, Live live) /\ h = handle live)) /\
      (forall st c, r = Ok (st, c) ->
         match c with
         | Live live => stream = true /\ handle live ∈ open_responses w'
         | Text _ => stream = false
         end).
Proof.
  induction k as [|k IH]; intros backoff w fuel Hnum Hfuel;
    (destruct fuel as [|fuel]; [lia|]); cbn [while_true];
    destruct (attempt_once_events method url prepared stream backoff w)
      as (r & w1 & evs & Hturn & Htr & Hex & Hca & Hopen & Hshape & Hkind);
    rewrite Hturn.
  all: assert (Hdone : forall (a : Z * content), r = Ok (Return a) ->
      exists r' w' evs' j,
        Some (Ok a, w1) = Some (r', w') /\
        trace w' = (trace w ++ evs')%list /\ (j <= 0)%nat /\
        count_events is_attempt evs' = S j /\
        count_events is_sleep evs' = j /\
        retry_numbers evs' = seq (S (get_num_retries backoff)) j /\
        exchanges w' = (exchanges w + S j)%nat /\
        (forall h, h ∈ open_responses w' ->
           h ∈ open_responses w \/
           (stream = true /\
            exists st live, r' = Ok (st, Live live) /\ h = handle live)) /\
        (forall st c, r' = Ok (st, c) ->
           match c with
           | Live live => stream = true /\ handle live ∈ open_responses w'
           | Text _ => stream = false
           end)).
  1,3: intros a ->; destruct Hkind as [Hcs Hrn];
    exists (Ok a), w1, evs, 0%nat;
    (split; [reflexivity|]); (split; [exact Htr|]); (split; [lia|]);
    (split; [exact Hca|]); (split; [exact Hcs|]); (split; [exact Hrn|]);
    (split; [lia|]); split;
    [ intros h Hh; destruct (Hopen h Hh) as [?|(Hst & st & live & [= ->] & ->)];
        [left; assumption | right; split; [assumption|]; eexists _, _; split; reflexivity]
    | intros st c [= ->]; exact (Hshape _ _ eq_refl) ].
  all: assert (Hfail : forall e, r = Raise e ->
      exists r' w' evs' j,
        Some (@Raise (Z * content) e, w1) = Some (r', w') /\
        trace w' = (trace w ++ evs')%list /\ (j <= 0)%nat /\
        count_events is_attempt evs' = S j /\
        count_events is_sleep evs' = j /\
        retry_numbers evs' = seq (S (get_num_retries backoff)) j /\
        exchanges w' = (exchanges w + S j)%nat /\
        (forall h, h ∈ open_responses w' ->
           h ∈ open_responses w \/
           (stream = true /\
            exists st live, r' = Ok (st, Live live) /\ h = handle live)) /\
        (forall st c, r' = Ok (st, c) ->
           match c with
           | Live live => stream = true /\ handle live ∈ open_responses w'
           | Text _ => stream = false
           end)).
  1,3: intros e ->; destruct Hkind as [Hcs Hrn];
    exists (Raise e), w1, evs, 0%nat;
    (split; [reflexivity|]); (split; [exact Htr|]); (split; [lia|]);
    (split; [exact Hca|]); (split; [exact Hcs|]); (split; [exact Hrn|]);
    (split; [lia|]); split;
    [ intros h Hh; destruct (Hopen h Hh) as [?|(_ & st & live & [=] & _)];
        left; assumption
    | intros st c [=] ].
  - destruct r as [[a|b]|e].
    + destruct (Hdone a eq_refl) as (r' & w' & evs' & j & H); exists r', w', evs', j; exact H.
    + destruct Hkind as (_ & _ & Hlt & _). lia.
    + destruct (Hfail e eq_refl) as (r' & w' & evs' & j & H); exists r', w', evs', j; exact H.
  - destruct r as [[a|b]|e].
    + destruct (Hdone a eq_refl) as (r' & w' & evs' & j & H1 & H2 & H3 & H);
        exists r', w', evs', j; repeat (split; [first [assumption | lia]|]); apply H.
    + destruct Hkind as (Hcs & Hrn & Hlt & Hb).
      destruct (IH b w1 fuel)
        as (r' & w' & evs' & j & Hloop & Htr' & Hj & Hca' & Hcs' & Hrn' & Hex' & Hopen' & Hshape');
        [lia | lia |].
      exists r', w', (evs ++ evs')%list, (S j).
      split; [exact Hloop|]. split; [rewrite Htr', Htr, <- app_assoc; reflexivity|].
      split; [lia|].
      split; [rewrite count_events_app, Hca, Hca'; lia|].
      split; [rewrite count_events_app, Hcs, Hcs'; lia|].
      split; [rewrite retry_numbers_app, Hrn, Hrn', Hb; cbn [seq app];
              replace (get_num_retries backoff + 1)%nat
                with (S (get_num_retries backoff)) by lia; reflexivity|].
      split; [lia|]. split; [|exact Hshape'].
      intros h Hh. destruct (Hopen' h Hh) as [Hin|Hlive]; [|right; exact Hlive].
      destruct (Hopen h Hin) as [?|(_ & st & live & [=] & _)]. left; assumption.
    + destruct (Hfail e eq_refl) as (r' & w' & evs' & j & H1 & H2 & H3 & H);
        exists r', w', evs', j; repeat (split; [first [assumption | lia]|]); apply H.
Qed.

(** X6: every call of [request_with_backoff] sleeps exactly once between
    consecutive attempts: with [j] retries it has made [j + 1] round trips
    and [j] sleeps, it has announced the retries in its log as numbers
    1, 2, ..., [j], and [j] is at most [max_network_retries]. *)
Theorem retries_are_counted (fuel : nat) (method url : string)
    (data json : option (gmap string string)) (hdrs : gmap string string)
    (stream : bool) (w : World) :
  (max_network_retries < fuel)%nat ->
  exists r w' evs j,
    request_with_backoff fuel method url data json hdrs stream w
      = Some (r, w') /\
    trace w' =
      (trace w ++
       EvPrepare {| req_method := method; req_url := url; req_data := data;
                    req_json := json; req_headers := hdrs |} :: evs)%list /\
    (j <= max_network_retries)%nat /\
    count_events is_attempt evs = S j /\
    count_events is_sleep evs = j /\
    retry_numbers evs = seq 1 j /\
    exchanges w' = (exchanges w + S j)%nat.
Proof.
  intros Hfuel. rewrite request_with_backoff_start. cbv zeta.
  match goal with |- context [while_true fuel (attempt_once _ _ ?p _) ?b ?w0] =>
    destruct (loop_accounting method url p stream max_network_retries b w0 fuel)
      as (r & w' & evs & j & Hloop & Htr & Hj & Hca & Hcs & Hrn & Hex & _);
      [reflexivity | exact Hfuel |]
  end.
  exists r, w', evs, j. split; [exact Hloop|].
  cbn [trace exchanges set_trace get_num_retries _num_retries] in Htr, Hex, Hrn.
  split; [rewrite Htr, <- app_assoc; reflexivity|].
  repeat split; assumption.
Qed.


(** ** The façade, call by call *)


(** The world once [_api_call] has logged the request. *)
Lemma api_call_eq (fuel : nat) (self : Translator) (url method : string)
    (data json : option (gmap string string)) (stream : bool)
    (headers_arg : option (gmap string string)) (w : World) :
  data = None \/ json = None ->
  _api_call fuel self url method data json stream headers_arg w =
    match
      request_with_backoff fuel method (urljoin (_server_url self) url)
        (Some match data with None => ∅ | Some d => d end) json
        (update_absent match headers_arg with None => ∅ | Some h => h end
           (headers self)) stream (logged_request w)
    with
    | None => None
    | Some (Raise e, w1) => Some (Raise e, w1)
    | Some (Ok (st, Text s), w1) =>
        Some (Ok (st, Text s, json_loads s),
              set_trace
                ((trace w1 ++ [EvLog "DeepL API response"]) ++
                 [EvLog "Response details"]) w1)
    | Some (Ok (st, Live r), w1) =>
        Some (Ok (st, Live r, None),
              set_trace (trace w1 ++ [EvLog "DeepL API response"]) w1)
    end.
Proof.
  intros Hone. unfold _api_call.
  replace (bool_decide (data ≠ None) && bool_decide (json ≠ None)) with false
    by (destruct Hone as [-> | ->]; [reflexivity | destruct data; reflexivity]).
  unfold bindF at 1. cbn [lift bind emit ret]. unfold bindF at 1.
  change (set_trace _ (set_trace _ w)) with (logged_request w).
  destruct (request_with_backoff _ _ _ _ _ _ _ _) as [[[[st c]|e] w1]|];
    [|reflexivity|reflexivity].
  destruct c; reflexivity.
Qed.



Lemma download_after_reply (fuel : nat) (self : Translator)
    (doc : DocumentHandle) (output_file : option (list string))
    (chunk_size : nat) (w : World)
    (r : result (Z * content * option JSON)) (w1 : World) :
  _api_call fuel self ("v2/document/" +:+ document_id doc +:+ "/result")
    "POST" None (Some {[ "document_key" := document_key doc ]}) true None w
    = Some (r, w1) ->
  translate_document_download fuel self doc output_file chunk_size w =
    match r with
    | Raise e => Some (Raise e, output_file, w1)
    | Ok (st, Text _, j) =>
        Some (Raise (new_exception Exception "AssertionError"), output_file, w1)
    | Ok (st, Live live, j) =>
        match base_raise_for_status st "<file>" j false true with
        | Raise e => Some (Raise e, output_file, w1)
        | Ok _ =>
            match output_file with
            | None => Some (Ok (Some live), None, w1)
            | Some file =>
                Some (match snd (iter_chunked live chunk_size) with
                      | None => Ok None
                      | Some e => Raise e
                      end,
                      Some (file ++ fst (iter_chunked live chunk_size))%list, w1)
            end
        end
    end.
Proof.
  intros Hrun. unfold translate_document_download. cbv zeta.
  unfold bindF at 1. rewrite Hrun.
  destruct r as [[[st c] j]|e]; [|reflexivity].
  destruct c as [s|live]; [reflexivity|].
  unfold bindF, lift, _raise_for_status, bind, ret.
  destruct (base_raise_for_status st "<file>" j false true); [|reflexivity].
  destruct output_file as [file|]; [|reflexivity].
  destruct (iter_chunked live chunk_size) as [chunks [e|]]; reflexivity.
Qed.

Lemma streamed_reply_is_live (fuel : nat) (self : Translator)
    (url method : string) (data json : option (gmap string string))
    (headers_arg : option (gmap string string)) (w : World)
    (st : Z) (c : content) (j : option JSON) (w1 : World) :
  (max_network_retries < fuel)%nat ->
  data = None \/ json = None ->
  _api_call fuel self url method data json true headers_arg w
    = Some (Ok (st, c, j), w1) ->
  exists live, c = Live live /\ handle live ∈ open_responses w1 /\ j = None.
Proof.
  intros Hfuel Hone. rewrite (api_call_eq _ _ _ _ _ _ _ _ _ Hone).
  rewrite request_with_backoff_start. cbv zeta.
  match goal with |- context [while_true fuel (attempt_once _ _ ?p _) ?b ?w0] =>
    destruct (loop_accounting method (urljoin (_server_url self) url) p true
                max_network_retries b w0 fuel)
      as (r & w' & evs & k & Hloop & _ & _ & _ & _ & _ & _ & _ & Hshape);
      [reflexivity | exact Hfuel |]
  end.
  rewrite Hloop. destruct r as [[st' c']|e]; [|discriminate].
  specialize (Hshape st' c' eq_refl).
  destruct c' as [s|live]; [discriminate (Hshape)|].
  intros [= <- <- <- <-]. exists live. destruct Hshape as [_ Hin].
  split; [reflexivity|]. split; [exact Hin | reflexivity].
Qed.

(** X10: once the download's API call has answered, the reply is a live
    response (the [assert] cannot fail) and it is checked against the
    literal text "<file>", not against its body.  If the check raises, the
    exception is raised on with the sink untouched and the response left
    open; otherwise, without a sink the live response is returned unread,
    and with a sink the chunks are appended to it in the order the stream
    yields them, also the ones that precede a failure of the stream, whose
    exception is raised as it is.  An exception of the API call is raised
    on with the sink untouched. *)
Theorem download_outcome (fuel : nat) (self : Translator)
    (doc : DocumentHandle) (output_file : option (list string))
    (chunk_size : nat) (w : World)
    (r : result (Z * content * option JSON)) (w1 : World) :
  (max_network_retries < fuel)%nat ->
  _api_call fuel self ("v2/document/" +:+ document_id doc +:+ "/result")
    "POST" None (Some {[ "document_key" := document_key doc ]}) true None w
    = Some (r, w1) ->
  match r with
  | Raise e =>
      translate_document_download fuel self doc output_file chunk_size w
        = Some (Raise e, output_file, w1)
  | Ok (st, c, j) =>
      exists live,
        c = Live live /\ handle live ∈ open_responses w1 /\
        translate_document_download fuel self doc output_file chunk_size w =
          match base_raise_for_status st "<file>" j false true with
          | Raise e => Some (Raise e, output_file, w1)
          | Ok _ =>
              match output_file with
              | None => Some (Ok (Some live), None, w1)
              | Some file =>
                  Some (match snd (iter_chunked live chunk_size) with
                        | None => Ok None
                        | Some e => Raise e
                        end,
                        Some (file ++ fst (iter_chunked live chunk_size))%list,
                        w1)
              end
          end
  end.
Proof.
  intros Hfuel Hrun.
  rewrite (download_after_reply fuel self doc output_file chunk_size w r w1 Hrun).
  destruct r as [[[st c] j]|e]; [|reflexivity].
  destruct (streamed_reply_is_live fuel self _ _ _ _ _ w st c j w1 Hfuel
              (or_introl eq_refl) Hrun) as (live & -> & Hin & _).
  exists live. split; [reflexivity|]. split; [exact Hin | reflexivity].
Qed.


(** X12: used as an asynchronous context manager the façade closes its
    transport when the block is left, whether the block returned or
    raised, and passes the block's value or exception on unchanged. *)
Theorem context_manager_closes (A : Type) (self : Translator)
    (block : Translator -> MF A) (w : World) (r : result A) (w1 : World) :
  block self w = Some (r, w1) ->
  exists w',
    async_with (Translator_aenter self) (Translator_aexit self) block w
      = Some (r, w') /\
    w' = set_session_closed true w1 /\
    session_closed w' = true.
Proof.
  intros Hblock. unfold async_with, bindF, lift, Translator_aenter, ret.
  rewrite Hblock. destruct r; eexists; repeat split.
Qed.

(** X13: [AioHttpClient.__init__] opens its session before it looks at
    the proxy: a proxy that is truthy and not a string is refused with a
    [ValueError] when the session already exists, and every other proxy
    (a string, also the empty one, [None], any falsy object) is stored as
    given. *)
Theorem proxy_is_checked_after_session (proxy : pyobj)
    (send_platform_info : bool) (verify_ssl : option bool) (w : World) :
  exists r,
    AioHttpClient_init proxy send_platform_info verify_ssl w
      = (r, set_session_closed false w) /\
    (truthy proxy = true -> is_str proxy = false ->
       r = Raise (new_exception ValueError
                    "proxy may be specified as a URL string.")) /\
    (truthy proxy = false \/ is_str proxy = true ->
       exists client,
         r = Ok client /\ _proxy client = proxy /\
         _verify_ssl client = verify_ssl /\
         _send_platform_info client = send_platform_info /\
         _app_info_name client = None /\ _app_info_version client = None).
Proof.
  unfold AioHttpClient_init, bind.
  destruct (truthy proxy) eqn:Ht, (is_str proxy) eqn:Hs; cbn;
    eexists; (split; [reflexivity|]); split;
    try (intros; discriminate); try (intros _ _; reflexivity);
    try (intros [?|?]; discriminate);
    intros _; eexists; repeat split.
Qed.

End Aiodeepl.

(** * The statements at sample inputs *)

(** The wrapped package's values: base 1 s, cap 120 s, jitter 0.23,
    multiplier 1.6. *)
Lemma sleep_until_deadline_steps_witness :
  (0 <= 23 # 100 /\ 0 <= 16 # 10 /\ 0 <= 120 /\ 0 <= _backoff fresh_timer /\
   -1 <= half_up (draws world0) <= 1) /\
  exists self' w',
    sleep_until_deadline 120 (23 # 100) (16 # 10) half_up fresh_timer world0
      = (Ok self', w') /\
    _backoff self' == 16 # 10 /\
    get_num_retries self' = 1%nat.
Proof.
  assert (H : 0 <= 23 # 100 /\ 0 <= 16 # 10 /\ 0 <= 120 /\
              0 <= _backoff fresh_timer /\ -1 <= half_up (draws world0) <= 1).
  { unfold Qle; cbn; lia. }
  split; [exact H|]. destruct H as (HJ & HM & HX & Hb & Hu).
  destruct (sleep_until_deadline_steps 120 (23 # 100) (16 # 10) half_up
              fresh_timer world0 HJ HM HX Hb Hu)
    as (self' & w' & Hrun & _ & Hback & _ & _ & _ & Hn).
  exists self', w'. split; [exact Hrun|]. split; [|exact Hn].
  rewrite Hback. reflexivity.
Defined.

Lemma backoff_nondecreasing_capped_witness :
  (1 <= 16 # 10 /\ 0 <= 1 /\ 1 <= 120) /\
  exists t w1 t' w2,
    sleeps 120 (23 # 100) (16 # 10) half_up 3
      {| _backoff := 1; _deadline := clock world0 + 1; _num_retries := 0 |}
      world0 = (Ok t, w1) /\
    sleep_until_deadline 120 (23 # 100) (16 # 10) half_up t w1 = (Ok t', w2) /\
    _backoff t <= _backoff t' /\ _backoff t' <= 120.
Proof.
  assert (H : 1 <= 16 # 10 /\ 0 <= 1 /\ 1 <= 120) by (unfold Qle; cbn; lia).
  split; [exact H|]. destruct H as (HM & HI & Hcap).
  destruct (backoff_nondecreasing_capped 1 120 (23 # 100) (16 # 10) half_up
              3 world0 HM HI Hcap)
    as (t & w1 & t' & w2 & Hrun & _ & Hstep & _ & Hgrow & Hle & _).
  exists t, w1, t', w2. repeat split; assumption.
Defined.

Lemma internal_request_classifies_witness :
  isinstance (new_exception ServerTimeoutError "deadline exceeded") Exception
    = true /\
  exists message w',
    _internal_request always_timing_out
      {| req_method := "POST"; req_url := "v2/translate"; req_data := None;
         req_json := None; req_headers := ∅ |} false 10 world0
      = (Raise (new_ConnectionException message true), w').
Proof.
  split; [reflexivity|].
  destruct (internal_request_classifies always_timing_out
              {| req_method := "POST"; req_url := "v2/translate";
                 req_data := None; req_json := None; req_headers := ∅ |}
              false 10 world0
              (new_exception ServerTimeoutError "deadline exceeded")
              eq_refl (or_introl eq_refl))
    as (message & flag & w' & Hrun & Hflag & _).
  exists message, w'. rewrite Hrun.
  replace flag with true; [reflexivity|].
  symmetry. apply Hflag. left. reflexivity.
Defined.

Lemma attempts_bounded_witness :
  (5 < 6)%nat /\
  (exists e w',
     request_with_backoff 1 120 (23 # 100) (16 # 10) 10 5 half_up
       always_timing_out 6 "POST" "v2/translate" None None ∅ false world0
       = Some (Raise e, w') /\
     exchanges w' = 6%nat /\ should_retry e = Some true) /\
  (exists e w',
     request_with_backoff 1 120 (23 # 100) (16 # 10) 10 5 half_up
       malformed_reply 6 "POST" "v2/translate" None None ∅ false world0
       = Some (Raise e, w') /\
     exchanges w' = 1%nat /\ should_retry e = Some false).
Proof.
  assert (Hfuel : (5 < 6)%nat) by lia.
  split; [exact Hfuel|]. split.
  - destruct (attempts_bounded 1 120 (23 # 100) (16 # 10) 10 5 half_up
                always_timing_out 6 "POST" "v2/translate" None None ∅ false
                world0 Hfuel) as [Hall _].
    destruct Hall as (e & w' & Hrun & Hex & _ & Hsr & _).
    { intros n t. eexists. split; reflexivity. }
    exists e, w'. repeat split; assumption.
  - destruct (attempts_bounded 1 120 (23 # 100) (16 # 10) 10 5 half_up
                malformed_reply 6 "POST" "v2/translate" None None ∅ false
                world0 Hfuel) as [_ Hfirst].
    destruct (Hfirst (new_exception ClientResponseError "malformed response"))
      as (e & w' & t & Hrun & Hex & _ & Hsr & _);
      [intros t; reflexivity | reflexivity | reflexivity |].
    exists e, w'. repeat split; assumption.
Defined.

Lemma descriptor_built_once_witness :
  (5 < 6)%nat /\
  exists r w' (t : Q) evs,
    request_with_backoff 1 120 (23 # 100) (16 # 10) 10 5 half_up
      always_timing_out 6 "POST" "v2/translate" None None ∅ false world0
      = Some (r, w') /\
    trace w' =
      EvPrepare {| req_method := "POST"; req_url := "v2/translate";
                   req_data := None; req_json := None; req_headers := ∅ |}
      :: EvAttempt {| req_method := "POST"; req_url := "v2/translate";
                      req_data := None; req_json := None; req_headers := ∅ |} t
      :: evs.
Proof.
  assert (Hfuel : (5 < 6)%nat) by lia.
  split; [exact Hfuel|].
  destruct (descriptor_built_once 1 120 (23 # 100) (16 # 10) 10 5 half_up
              always_timing_out 6 "POST" "v2/translate" None None ∅ false
              world0 Hfuel) as (r & w' & t & evs & Hrun & Htr & _).
  exists r, w', t, evs. split; assumption.
Defined.

Lemma caller_headers_take_precedence_witness :
  ((5 < 6)%nat /\
   ((None : option (gmap string string)) = None \/
    Some sample_body = None) /\
   Translator_init "https://api.deepl.com" "https://api-free.deepl.com"
     (fun _ => false) "secret" None world0
     = (Ok {| _server_url := "https://api.deepl.com";
              headers := {[ "Authorization" := "DeepL-Auth-Key secret" ]} |},
        world0)) /\
  exists r w' prepared evs,
    _api_call 1 120 (23 # 100) (16 # 10) 10 5 half_up answers_ok join_urls
      unit no_json 6
      {| _server_url := "https://api.deepl.com";
         headers := {[ "Authorization" := "DeepL-Auth-Key secret" ]} |}
      "v2/translate" "POST" None (Some sample_body) false
      (Some {[ "Authorization" := "Bearer mine" ]}) world0
      = Some (r, w') /\
    trace w' =
      EvLog "Request to DeepL API" :: EvLog "Request details"
        :: EvPrepare prepared :: evs /\
    req_headers prepared !! "Authorization" = Some "Bearer mine".
Proof.
  assert (H : (5 < 6)%nat /\
   ((None : option (gmap string string)) = None \/
    Some sample_body = None) /\
   Translator_init "https://api.deepl.com" "https://api-free.deepl.com"
     (fun _ => false) "secret" None world0
     = (Ok {| _server_url := "https://api.deepl.com";
              headers := {[ "Authorization" := "DeepL-Auth-Key secret" ]} |},
        world0)).
  { split; [lia|]. split; [left; reflexivity | reflexivity]. }
  split; [exact H|]. destruct H as (Hfuel & Hone & Hinit).
  destruct (caller_headers_take_precedence 1 120 (23 # 100) (16 # 10) 10 5
              half_up answers_ok join_urls unit no_json
              "https://api.deepl.com" "https://api-free.deepl.com"
              (fun _ => false) 6 "secret" None _ "v2/translate" "POST"
              None (Some sample_body) false
              {[ "Authorization" := "Bearer mine" ]} world0 world0 world0
              Hfuel Hone Hinit)
    as (r & w' & prepared & evs & Hrun & Htr & Hkeep & _ & _ & _).
  exists r, w', prepared, evs. split; [exact Hrun|]. split; [exact Htr|].
  apply Hkeep. apply lookup_singleton_eq.
Defined.

(** The scenario of two timeouts followed by a 200: the caller gets
    [(200, "ok")] after three round trips and two sleeps, with no response
    left open. *)
Example two_timeouts_then_ok :
  exists w',
    request_with_backoff 1 120 (23 # 100) (16 # 10) 10 5 half_up
      flaky_then_ok 6 "POST" "v2/translate" None None ∅ false world0
      = Some (Ok (200%Z, Text "ok"), w') /\
    exchanges w' = 3%nat /\
    length (filter (fun ev => is_attempt ev) (trace w')) = 3%nat /\
    length (filter (fun ev => is_sleep ev) (trace w')) = 2%nat /\
    open_responses w' = [].
Proof. eexists. split; [vm_compute; reflexivity|]. repeat split. Qed.

(** A body that cannot be decoded: the attempt raises the non-retryable
    error and the response has been closed. *)
Example undecodable_body_is_released :
  exists w',
    _internal_request undecodable_body
      {| req_method := "POST"; req_url := "v2/translate"; req_data := None;
         req_json := None; req_headers := ∅ |} false 10 world0
      = (Raise (new_ConnectionException
                  "Unexpected request failure: invalid start byte" false), w') /\
    open_responses w' = [] /\
    EvResponseClose 0 ∈ trace w'.
Proof.
  eexists. split; [vm_compute; reflexivity|]. split; [reflexivity|].
  apply list_elem_of_In. cbn. auto.
Qed.

(** * Where the code departs from the specification *)

(** C7 fails at the transport: [AioHttpClient.request] given both a form
    body and a JSON body raises nothing of its own; against a server that
    answers it performs the round trip and returns the answer.  The façade
    itself hands the transport both bodies on every JSON call: with
    [data] absent it passes an empty form body along with [json]. *)
Lemma transport_accepts_both_bodies :
  (exists w',
     request 10 answers_ok "POST" "v2/translate" (Some sample_body)
       (Some sample_body) ∅ false world0 = (Ok (200%Z, Text "ok"), w') /\
     exchanges w' = 1%nat) /\
  (exists r w' prepared evs,
     _api_call 1 120 (23 # 100) (16 # 10) 10 5 half_up answers_ok join_urls
       unit no_json 6
       {| _server_url := "https://api.deepl.com";
          headers := {[ "Authorization" := "DeepL-Auth-Key secret" ]} |}
       "v2/document/7/result" "POST" None (Some sample_body) true None world0
       = Some (Ok r, w') /\
     trace w' =
       EvLog "Request to DeepL API" :: EvLog "Request details"
         :: EvPrepare prepared :: evs /\
     req_data prepared = Some ∅ /\
     req_json prepared = Some sample_body /\
     exchanges w' = 1%nat).
Proof.
  split.
  - eexists. split; reflexivity.
  - eexists _, _, _, _. split; [vm_compute; reflexivity|].
    repeat split.
Qed.

(** C9 fails on the logging: with the event loop already closed the
    finalizer swallows the [RuntimeError] and leaves the world as it found
    it, the trace included: nothing has been logged. *)
Lemma finalizer_logs_nothing :
  loop world_after_shutdown = LoopClosed /\
  Translator_del world_after_shutdown = (Ok tt, world_after_shutdown) /\
  trace world_after_shutdown = [].
Proof. repeat split. Qed.

(** * The further properties at sample inputs *)

Lemma sleeps_closed_form_witness :
  (1 <= 16 # 10 /\ 0 <= 120 /\ 0 <= _backoff fresh_timer <= 120) /\
  exists self' w',
    sleeps 120 (23 # 100) (16 # 10) half_up 3 fresh_timer world0
      = (Ok self', w') /\
    _backoff self' == 4096 # 1000 /\
    get_num_retries self' = 3%nat.
Proof.
  assert (H : 1 <= 16 # 10 /\ 0 <= 120 /\ 0 <= _backoff fresh_timer <= 120)
    by (unfold Qle; cbn; lia).
  split; [exact H|]. destruct H as (HM & HX & Hb).
  destruct (sleeps_closed_form 120 (23 # 100) (16 # 10) half_up 3 fresh_timer
              world0 HM HX Hb) as (self' & w' & Hrun & Hback & Hn & _).
  exists self', w'. split; [exact Hrun|]. split; [|exact Hn].
  rewrite Hback. vm_compute. reflexivity.
Defined.


Lemma cancellation_passes_through_witness :
  isinstance (new_exception CancelledError "") Exception = false /\
  exists w',
    while_true 1
      (attempt_once 120 (23 # 100) (16 # 10) 10 5 half_up cancelled
         "POST" "v2/translate" sample_request false) fresh_timer world0
      = Some (Raise (new_exception CancelledError ""), w') /\
    exchanges w' = 1%nat.
Proof.
  split; [reflexivity|].
  destruct (cancellation_passes_through 120 (23 # 100) (16 # 10) 10 5 half_up
              cancelled 0 "POST" "v2/translate" sample_request false
              fresh_timer world0 (new_exception CancelledError "")
              eq_refl (or_introl eq_refl))
    as (w' & _ & Hloop & Hex & _).
  exists w'. split; [exact Hloop | exact Hex].
Defined.

Lemma classified_message_witness :
  (isinstance (new_exception ServerTimeoutError "deadline exceeded") Exception
     = true /\
   always_timing_out (exchanges world0) sample_request 10
     = Fails (new_exception ServerTimeoutError "deadline exceeded")) /\
  exists e w',
    _internal_request always_timing_out sample_request false 10 world0
      = (Raise e, w') /\
    exc_str e = "Request timed out: deadline exceeded".
Proof.
  split; [split; reflexivity|].
  destruct (classified_message always_timing_out sample_request false 10
              world0 (new_exception ServerTimeoutError "deadline exceeded")
              eq_refl eq_refl) as (e & w' & Hrun & _ & Htimeout & _).
  exists e, w'. split; [exact Hrun|].
  destruct (Htimeout eq_refl) as [_ Hmsg]. exact Hmsg.
Defined.

Lemma retries_are_counted_witness :
  (5 < 6)%nat /\
  exists r w' evs j,
    request_with_backoff 1 120 (23 # 100) (16 # 10) 10 5 half_up
      flaky_then_ok 6 "POST" "v2/translate" None None ∅ false world0
      = Some (r, w') /\
    count_events is_attempt evs = S j /\
    count_events is_sleep evs = j /\
    retry_numbers evs = seq 1 j /\
    exchanges w' = S j.
Proof.
  assert (Hfuel : (5 < 6)%nat) by lia.
  split; [exact Hfuel|].
  destruct (retries_are_counted 1 120 (23 # 100) (16 # 10) 10 5 half_up
              flaky_then_ok 6 "POST" "v2/translate" None None ∅ false world0
              Hfuel) as (r & w' & evs & j & Hrun & _ & _ & Ha & Hs & Hn & Hex).
  exists r, w', evs, j. repeat split; assumption.
Defined.




Lemma download_outcome_witness :
  exists w1,
    ((5 < 6)%nat /\
     _api_call 1 120 (23 # 100) (16 # 10) 10 5 half_up answers_ok join_urls
       unit no_json 6 sample_translator
       ("v2/document/" +:+ document_id sample_document +:+ "/result") "POST"
       None (Some {[ "document_key" := document_key sample_document ]}) true
       None world0
       = Some (Ok (200%Z,
                   Live {| handle := 0; status := 200; body := Ok "ok" |},
                   None), w1)) /\
    translate_document_download 1 120 (23 # 100) (16 # 10) 10 5 half_up
      answers_ok join_urls unit no_json status_is_fine three_chunks 6
      sample_translator sample_document (Some ["x"]) 2 world0
      = Some (Ok None, Some ["x"; "ab"; "cd"; "e"], w1).
Proof.
  assert (H : {w1 | _api_call 1 120 (23 # 100) (16 # 10) 10 5 half_up
       answers_ok join_urls unit no_json 6 sample_translator
       ("v2/document/" +:+ document_id sample_document +:+ "/result") "POST"
       None (Some {[ "document_key" := document_key sample_document ]}) true
       None world0
       = Some (Ok (200%Z,
                   Live {| handle := 0; status := 200; body := Ok "ok" |},
                   None), w1)})
    by (eexists; vm_compute; reflexivity).
  destruct H as [w1 Hrun]. exists w1.
  assert (Hfuel : (5 < 6)%nat) by lia.
  split; [split; [exact Hfuel | exact Hrun]|].
  destruct (download_outcome 1 120 (23 # 100) (16 # 10) 10 5 half_up
              answers_ok join_urls unit no_json status_is_fine three_chunks 6
              sample_translator sample_document (Some ["x"]) 2 world0 _ w1
              Hfuel Hrun) as (live & Hlive & _ & Hout).
  exact Hout.
Defined.


Lemma context_manager_closes_witness :
  exists w1 w',
    _api_call 1 120 (23 # 100) (16 # 10) 10 5 half_up always_timing_out
      join_urls unit no_json 6 sample_translator "v2/translate" "POST" None
      (Some sample_body) false None world0
      = Some (Raise (new_ConnectionException
                       "Request timed out: deadline exceeded" true), w1) /\
    async_with (Translator_aenter sample_translator)
      (Translator_aexit sample_translator)
      (fun self =>
         _api_call 1 120 (23 # 100) (16 # 10) 10 5 half_up always_timing_out
           join_urls unit no_json 6 self "v2/translate" "POST" None
           (Some sample_body) false None) world0
      = Some (Raise (new_ConnectionException
                       "Request timed out: deadline exceeded" true), w') /\
    session_closed w' = true.
Proof.
  assert (H : {w1 | _api_call 1 120 (23 # 100) (16 # 10) 10 5 half_up
      always_timing_out join_urls unit no_json 6 sample_translator
      "v2/translate" "POST" None (Some sample_body) false None world0
      = Some (Raise (new_ConnectionException
                       "Request timed out: deadline exceeded" true), w1)})
    by (eexists; vm_compute; reflexivity).
  destruct H as [w1 Hrun]. exists w1.
  destruct (context_manager_closes _ sample_translator
              (fun self =>
                 _api_call 1 120 (23 # 100) (16 # 10) 10 5 half_up
                   always_timing_out join_urls unit no_json 6 self
                   "v2/translate" "POST" None (Some sample_body) false None)
              world0 _ w1 Hrun) as (w' & Hwith & _ & Hclosed).
  exists w'. split; [exact Hrun|]. split; [exact Hwith | exact Hclosed].
Defined.
